(** * SynCode: room replication server and editor client

    A shallow embedding of the Socket.IO relay server (the TypeScript
    program appended to [README.md]) and of the React client ([App]),
    followed by the properties of the room store, the membership
    bookkeeping, the replication protocol and the signalling relay. *)

From stdpp Require Import base option gmap sets list strings.
From Stdlib Require Import String Ascii.

Local Open Scope string_scope.

(** ** Wire format *)
Module Wire.

(** One entry of Monaco's [event.changes]: [rangeLength] characters at
    [rangeOffset] are replaced by [text].  The entry also carries the same
    span as a [range] of line and column positions, which is what the
    editor goes by when the entry is replayed; the program never looks
    inside an entry, it hands the array from one editor to another. *)
Record Change := mkChange {
  rangeOffset : nat;
  rangeLength : nat;
  text : string
}.

(** [delta] on the wire: an array of changes, or [null]/[undefined]. *)
Definition Delta := list Change.

(** A WebRTC handshake blob; the relay never looks inside. *)
Definition Signal := string.

(** [interface RoomData]. *)
Record RoomData := mkRoomData {
  code : string;
  language : string;
  output : list string
}.

(** Client-to-server events.  [unhandled name] is any event for which the
    server registers no listener. *)
Inductive client_msg :=
| join_room (roomId : string)
| request_users (roomId : string)
| sending_signal (userToSignal callerID : string) (signal : Signal)
| returning_signal (signal : Signal) (callerID : string)
| code_change (roomId code : string) (delta : option Delta)
| language_change (roomId language : string)
| output_change (roomId : string) (output : list string)
| unhandled (name : string).

(** The client's [socket.emit("leave_room")]. *)
Definition leave_room : client_msg := unhandled "leave_room".

(** Server-to-client events. *)
Inductive server_msg :=
| user_count (n : nat)
| sync_state (roomData : RoomData)
| all_users (others : list string)
| user_joined (signal : Signal) (callerID : string)
| receiving_returned_signal (signal : Signal) (id : string)
| receive_code (code : string) (delta : option Delta)
| receive_language (language : string)
| receive_output (output : list string)
| user_left (id : string).

(** One [emit]: the connections it is written to and what is written. *)
Record emission := Emit {
  recipients : gset string;
  payload : server_msg
}.

(** The line feed of the [\n] escapes in the source's string literals. *)
Definition nl : string := String (ascii_of_nat 10) "".

End Wire.

(** ** The transport's grouping primitive

    [io.sockets.adapter.rooms] of Socket.IO: a map from a room name to the
    set of socket ids in it.  A socket is put in the room named by its own
    id when it connects, [socket.join] adds it to a further room, and it
    is taken out of every room when it disconnects; a room that becomes
    empty is dropped from the map.  Rooms are the only addresses there
    are: [io.to(name)] reaches the sockets in the room of that name, so
    [io.to(socket.id)] reaches that socket through the room it was put in
    at connect.

    A room is a JavaScript [Set]: it is iterated in the order its ids were
    added, and adding an id it already holds changes nothing.  [listing]
    is the room in that order ([Array.from]), [group] the same as a set. *)
Module Adapter.

Definition listing (a : gmap string (list string)) (room : string) : list string :=
  default [] (a !! room).

Definition group (a : gmap string (list string)) (room : string) : gset string :=
  list_to_set (listing a room).

Definition add (sid room : string) (a : gmap string (list string))
  : gmap string (list string) :=
  let l := listing a room in
  <[room := if decide (sid ∈ l) then l else (l ++ [sid])%list]> a.

Definition strip (sid : string) (l : list string) : option (list string) :=
  let l' := filter (λ y, y ≠ sid) l in
  if decide (l' = []) then None else Some l'.

Definition delAll (sid : string) (a : gmap string (list string))
  : gmap string (list string) :=
  omap (strip sid) a.

End Adapter.

(** ** The server *)
Module Server.
Import Wire.

(** Process-wide state: the two [Map]s of the program, the transport's
    rooms and connected sockets, and the callbacks handed to [setTimeout]
    that have not run yet, each with the [roomId] and [socket.id] it
    closes over.  Every timer is set with the same delay, so they run in
    the order they were set. *)
Record State := mkState {
  rooms : gmap string RoomData;
  socketRoomMap : gmap string string;
  adapter : gmap string (list string);
  sockets : gset string;
  timers : list (string * string)
}.

Definition init : State := mkState ∅ ∅ ∅ ∅ [].

Definition set_rooms (f : gmap string RoomData → gmap string RoomData) (s : State) : State :=
  mkState (f (rooms s)) (socketRoomMap s) (adapter s) (sockets s) (timers s).

Definition set_socketRoomMap (f : gmap string string → gmap string string) (s : State) : State :=
  mkState (rooms s) (f (socketRoomMap s)) (adapter s) (sockets s) (timers s).

Definition set_adapter
    (f : gmap string (list string) → gmap string (list string)) (s : State) : State :=
  mkState (rooms s) (socketRoomMap s) (f (adapter s)) (sockets s) (timers s).

Definition set_sockets (f : gset string → gset string) (s : State) : State :=
  mkState (rooms s) (socketRoomMap s) (adapter s) (f (sockets s)) (timers s).

Definition set_timers
    (f : list (string * string) → list (string * string)) (s : State) : State :=
  mkState (rooms s) (socketRoomMap s) (adapter s) (sockets s) (f (timers s)).

(** [io.sockets.adapter.rooms.get(roomId) || []]. *)
Definition members (s : State) (roomId : string) : gset string :=
  Adapter.group (adapter s) roomId.

(** [io.to(room).emit(..)]: to every socket in the room of that name. *)
Definition io_to (s : State) (room : string) (m : server_msg) : emission :=
  Emit (members s room) m.

(** [socket.to(room).emit(..)]: a broadcast to the room that excepts the
    room named by the emitting socket's id, that is, every socket found in
    that room: the emitting socket, and whoever else has joined a room of
    that name. *)
Definition socket_to (s : State) (socket_id room : string) (m : server_msg) : emission :=
  Emit (members s room ∖ members s socket_id) m.

(** [socket.emit(..)]: to this socket. *)
Definition socket_emit (socket_id : string) (m : server_msg) : emission :=
  Emit {[socket_id]} m.

Definition defaultRoom : RoomData :=
  mkRoomData
    ("// Welcome to SyncCode" ++ nl ++ "// Select a language and start typing...")
    "javascript"
    ["Ready to execute..."].

(** A listener either returns the new state with what it emitted, or
    throws ([None]).  The one expression that could throw is a property
    access on [rooms.get(roomId)!]; the lookup is written in the option
    monad, [None] standing for the [undefined] the assertion rules out. *)
Definition result : Type := option (State * list emission).

Definition on_join_room (socket_id roomId : string) (s : State) : result :=
  let s := set_adapter (Adapter.add socket_id roomId) s in
  let s := set_socketRoomMap (<[socket_id := roomId]>) s in
  let clients := members s roomId in
  let e1 := io_to s roomId (user_count (size clients)) in
  let s :=
    if bool_decide (is_Some (rooms s !! roomId)) then s
    else set_rooms (<[roomId := defaultRoom]>) s in
  roomData ← rooms s !! roomId;
  Some (s, [e1; io_to s socket_id (sync_state roomData)]).

Definition on_request_users (socket_id roomId : string) (s : State) : result :=
  let clients := Adapter.listing (adapter s) roomId in
  let others := filter (λ id, id ≠ socket_id) clients in
  Some (s, [socket_emit socket_id (all_users others)]).

Definition on_sending_signal
    (userToSignal callerID : string) (signal : Signal) (s : State) : result :=
  Some (s, [io_to s userToSignal (user_joined signal callerID)]).

Definition on_returning_signal
    (socket_id : string) (signal : Signal) (callerID : string) (s : State) : result :=
  Some (s, [io_to s callerID (receiving_returned_signal signal socket_id)]).

Definition on_code_change
    (socket_id roomId code : string) (delta : option Delta) (s : State) : result :=
  if bool_decide (is_Some (rooms s !! roomId)) then
    roomData ← rooms s !! roomId;
    let s := set_rooms
      (<[roomId := mkRoomData code (Wire.language roomData) (Wire.output roomData)]>) s in
    Some (s, [socket_to s socket_id roomId (receive_code code delta)])
  else Some (s, []).

Definition on_language_change (socket_id roomId language : string) (s : State) : result :=
  if bool_decide (is_Some (rooms s !! roomId)) then
    roomData ← rooms s !! roomId;
    let s := set_rooms
      (<[roomId := mkRoomData (Wire.code roomData) language (Wire.output roomData)]>) s in
    Some (s, [socket_to s socket_id roomId (receive_language language)])
  else Some (s, []).

Definition on_output_change
    (socket_id roomId : string) (output : list string) (s : State) : result :=
  if bool_decide (is_Some (rooms s !! roomId)) then
    roomData ← rooms s !! roomId;
    let s := set_rooms
      (<[roomId := mkRoomData (Wire.code roomData) (Wire.language roomData) output]>) s in
    Some (s, [socket_to s socket_id roomId (receive_output output)])
  else Some (s, []).

(** [if (roomId)] on a [string | undefined]: the empty string is falsy. *)
Definition truthy (roomId : string) : bool :=
  negb (String.eqb roomId "").

Definition on_disconnect (socket_id : string) (s : State) : result :=
  match socketRoomMap s !! socket_id with
  | Some roomId =>
      if truthy roomId then
        let s := set_socketRoomMap (delete socket_id) s in
        Some (set_timers (λ q, (q ++ [(roomId, socket_id)])%list) s, [])
      else Some (s, [])
  | None => Some (s, [])
  end.

(** The callback the disconnect handler gives to [setTimeout]. *)
Definition on_timeout (roomId socket_id : string) (s : State) : result :=
  let count := size (members s roomId) in
  let e1 := io_to s roomId (user_count count) in
  let e2 := socket_to s socket_id roomId (user_left socket_id) in
  let s := if decide (count = 0) then set_rooms (delete roomId) s else s in
  Some (s, [e1; e2]).

(** The listeners registered inside [io.on("connection", ..)]. *)
Definition dispatch (socket_id : string) (m : client_msg) (s : State) : result :=
  match m with
  | join_room roomId => on_join_room socket_id roomId s
  | request_users roomId => on_request_users socket_id roomId s
  | sending_signal userToSignal callerID signal =>
      on_sending_signal userToSignal callerID signal s
  | returning_signal signal callerID =>
      on_returning_signal socket_id signal callerID s
  | code_change roomId code delta => on_code_change socket_id roomId code delta s
  | language_change roomId language => on_language_change socket_id roomId language s
  | output_change roomId output => on_output_change socket_id roomId output s
  | unhandled _ => Some (s, [])
  end.

(** What the event loop can run next: a socket connects, a connected
    socket's message arrives, a socket disconnects (the transport takes it
    out of every room before the listener runs), or the oldest timer fires. *)
Inductive event :=
| Connect (socket_id : string)
| Recv (socket_id : string) (m : client_msg)
| Disconnect (socket_id : string)
| Timeout.

Definition step (s : State) (ev : event) : result :=
  match ev with
  | Connect socket_id =>
      if decide (socket_id ∈ sockets s) then Some (s, [])
      else
        let s := set_sockets (λ c, {[socket_id]} ∪ c) s in
        Some (set_adapter (Adapter.add socket_id socket_id) s, [])
  | Recv socket_id m =>
      if decide (socket_id ∈ sockets s) then dispatch socket_id m s
      else Some (s, [])
  | Disconnect socket_id =>
      if decide (socket_id ∈ sockets s) then
        let s := set_adapter (Adapter.delAll socket_id) s in
        let s := set_sockets (λ c, c ∖ {[socket_id]}) s in
        on_disconnect socket_id s
      else Some (s, [])
  | Timeout =>
      match timers s with
      | [] => Some (s, [])
      | (roomId, socket_id) :: rest =>
          on_timeout roomId socket_id (set_timers (λ _, rest) s)
      end
  end.

(** Running a sequence of events, collecting everything emitted. *)
Fixpoint run (s : State) (tr : list event) : result :=
  match tr with
  | [] => Some (s, [])
  | ev :: tr =>
      '(s1, out1) ← step s ev;
      '(s2, out2) ← run s1 tr;
      Some (s2, (out1 ++ out2)%list)
  end.

Definition reachable (s : State) : Prop :=
  ∃ tr out, run init tr = Some (s, out).

(** No connection other than [x] itself is in the transport group named
    [x]: nobody has joined a room whose key is that connection id. *)
Definition private (s : State) (x : string) : Prop :=
  members s x ⊆ {[x]}.

(** The same transitions as a relation, one constructor per branch of a
    listener; [ServerFacts.step_inv] derives it from [step]. *)
Inductive step_spec (s : State) : event → State → list emission → Prop :=
| sp_connect_dup x : x ∈ sockets s → step_spec s (Connect x) s []
| sp_connect x : x ∉ sockets s →
    step_spec s (Connect x)
      (mkState (rooms s) (socketRoomMap s) (Adapter.add x x (adapter s))
               ({[x]} ∪ sockets s) (timers s)) []
| sp_stray x m : x ∉ sockets s → step_spec s (Recv x m) s []
| sp_join x roomId s' : x ∈ sockets s →
    s' = mkState (<[roomId := default defaultRoom (rooms s !! roomId)]> (rooms s))
                 (<[x := roomId]> (socketRoomMap s))
                 (Adapter.add x roomId (adapter s)) (sockets s) (timers s) →
    step_spec s (Recv x (join_room roomId)) s'
      [Emit (members s' roomId) (user_count (size (members s' roomId)));
       Emit (members s' x) (sync_state (default defaultRoom (rooms s !! roomId)))]
| sp_request x roomId : x ∈ sockets s →
    step_spec s (Recv x (request_users roomId)) s
      [Emit {[x]} (all_users (filter (λ id, id ≠ x) (Adapter.listing (adapter s) roomId)))]
| sp_offer x target callerID signal : x ∈ sockets s →
    step_spec s (Recv x (sending_signal target callerID signal)) s
      [Emit (members s target) (user_joined signal callerID)]
| sp_answer x signal target : x ∈ sockets s →
    step_spec s (Recv x (returning_signal signal target)) s
      [Emit (members s target) (receiving_returned_signal signal x)]
| sp_code x roomId c delta rd : x ∈ sockets s → rooms s !! roomId = Some rd →
    step_spec s (Recv x (code_change roomId c delta))
      (set_rooms (<[roomId := mkRoomData c (language rd) (output rd)]>) s)
      [Emit (members s roomId ∖ members s x) (receive_code c delta)]
| sp_code_unknown x roomId c delta : x ∈ sockets s → rooms s !! roomId = None →
    step_spec s (Recv x (code_change roomId c delta)) s []
| sp_language x roomId l rd : x ∈ sockets s → rooms s !! roomId = Some rd →
    step_spec s (Recv x (language_change roomId l))
      (set_rooms (<[roomId := mkRoomData (code rd) l (output rd)]>) s)
      [Emit (members s roomId ∖ members s x) (receive_language l)]
| sp_language_unknown x roomId l : x ∈ sockets s → rooms s !! roomId = None →
    step_spec s (Recv x (language_change roomId l)) s []
| sp_output x roomId o rd : x ∈ sockets s → rooms s !! roomId = Some rd →
    step_spec s (Recv x (output_change roomId o))
      (set_rooms (<[roomId := mkRoomData (code rd) (language rd) o]>) s)
      [Emit (members s roomId ∖ members s x) (receive_output o)]
| sp_output_unknown x roomId o : x ∈ sockets s → rooms s !! roomId = None →
    step_spec s (Recv x (output_change roomId o)) s []
| sp_unhandled x name : x ∈ sockets s → step_spec s (Recv x (unhandled name)) s []
| sp_disconnect_stray x : x ∉ sockets s → step_spec s (Disconnect x) s []
| sp_disconnect x roomId : x ∈ sockets s →
    socketRoomMap s !! x = Some roomId → roomId ≠ "" →
    step_spec s (Disconnect x)
      (mkState (rooms s) (delete x (socketRoomMap s)) (Adapter.delAll x (adapter s))
               (sockets s ∖ {[x]}) (timers s ++ [(roomId, x)])%list) []
| sp_disconnect_roomless x : x ∈ sockets s →
    (socketRoomMap s !! x = None ∨ socketRoomMap s !! x = Some "") →
    step_spec s (Disconnect x)
      (mkState (rooms s) (socketRoomMap s) (Adapter.delAll x (adapter s))
               (sockets s ∖ {[x]}) (timers s)) []
| sp_idle : timers s = [] → step_spec s Timeout s []
| sp_timeout roomId x rest s1 : timers s = (roomId, x) :: rest →
    s1 = set_timers (λ _, rest) s →
    step_spec s Timeout
      (if decide (size (members s roomId) = 0) then set_rooms (delete roomId) s1 else s1)
      [Emit (members s roomId) (user_count (size (members s roomId)));
       Emit (members s roomId ∖ members s x) (user_left x)].

(** The transport's own invariant: a connected socket is in the room named
    by its id, and rooms hold connected sockets only. *)
Definition wf (s : State) : Prop :=
  (∀ x, x ∈ sockets s → x ∈ members s x) ∧
  (∀ r x, x ∈ members s r → x ∈ sockets s).

(** The state and the log after a history. *)
Definition state_after (tr : list event) : State :=
  match run init tr with Some (s, _) => s | None => init end.

Definition log_after (tr : list event) : list emission :=
  match run init tr with Some (_, out) => out | None => [] end.

(** Two connections in room "r". *)
Definition busy_room : list event :=
  [Connect "A"; Connect "B"; Recv "A" (join_room "r"); Recv "B" (join_room "r")].

(** "B" has joined a room whose key is the connection id "A". *)
Definition shadowed : list event :=
  [Connect "A"; Connect "B"; Connect "C"; Recv "B" (join_room "A")].


(** "A" and "B" are in room "r", and "B" has also joined the room whose
    key is the connection id "A". *)
Definition eclipsed : list event :=
  [Connect "A"; Connect "B"; Recv "A" (join_room "r"); Recv "B" (join_room "r");
   Recv "B" (join_room "A")].

(** "A" and "B" are in room "a"; "A" then joins room "b" and disconnects,
    and its cleanup runs. *)
Definition adrift : list event :=
  [Connect "A"; Connect "B"; Recv "A" (join_room "a"); Recv "B" (join_room "a");
   Recv "A" (join_room "b"); Disconnect "A"; Timeout].

(** One connection asks for room "a", then for room "b". *)
Definition two_joins : list event :=
  [Connect "A"; Recv "A" (join_room "a"); Recv "A" (join_room "b")].

(** One connection, no room yet. *)
Definition lobby : list event := [Connect "A"].


(** Connection [sid] never asks for a second room. *)
Definition joins_one_room (tr : list event) (sid : string) : Prop :=
  ∀ ra rb, Recv sid (join_room ra) ∈ tr → Recv sid (join_room rb) ∈ tr → ra = rb.

(** What the history says about the groups and the map. *)
Definition history_inv (tr : list event) (s : State) : Prop :=
  (∀ x r, x ∈ members s r → r = x ∨ Recv x (join_room r) ∈ tr) ∧
  (∀ x r, socketRoomMap s !! x = Some r → Recv x (join_room r) ∈ tr) ∧
  (∀ x r, x ∈ members s r → r ≠ x → is_Some (socketRoomMap s !! x)).

(** The member count connection [x] was sent last, reading a log. *)
Fixpoint last_count (out : list emission) (x : string) : option nat :=
  match out with
  | [] => None
  | e :: out =>
      match last_count out x with
      | Some n => Some n
      | None =>
          match payload e with
          | user_count n => if decide (x ∈ recipients e) then Some n else None
          | _ => None
          end
      end
  end.

(** A history as the client produces it: every connection asks for one
    room key only, and a room key is neither empty nor a connection id. *)
Definition disciplined (tr : list event) : Prop :=
  (∀ x, joins_one_room tr x) ∧
  (∀ x r, Recv x (join_room r) ∈ tr → r ≠ "" ∧ Connect r ∉ tr).

(** Along such a history: connected sockets have connected, timers are for
    rooms somebody joined, and in every room either each member was last
    sent the present size of the group or a cleanup is still pending. *)
Definition settled_inv (tr : list event) (s : State) (out : list emission) : Prop :=
  (∀ x, x ∈ sockets s → Connect x ∈ tr) ∧
  (∀ r y, (r, y) ∈ timers s → ∃ x, Recv x (join_room r) ∈ tr) ∧
  (∀ r,
     (∀ x, x ∈ members s r → r ≠ x → last_count out x = Some (size (members s r))) ∨
     (∃ y, (r, y) ∈ timers s)).

(** "B" left room "r" and its cleanup has run. *)
Definition one_left : list event :=
  [Connect "A"; Connect "B"; Recv "A" (join_room "r"); Recv "B" (join_room "r");
   Disconnect "B"; Timeout].

End Server.

(** ** The client ([App]) *)
Module Client.
Import Wire.

(** [CODE_TEMPLATES.javascript], the editor's first content. *)
Definition template_javascript : string :=
  "// Welcome to SyncCode" ++ nl ++ "// Start typing your JavaScript...".

(** The component's state: the [useState] cells that matter to the
    protocol, the two refs, the reset callbacks given to [setTimeout] that
    have not run yet (each with its delay in milliseconds), and what
    [socket.emit] has sent so far.  [editorRef] holds the text of the Monaco
    model once the editor is mounted. *)
Record Client := mkClient {
  roomId : string;
  joined : bool;
  language : string;
  code : string;
  output : list string;
  userCount : nat;
  isRemoteUpdate : bool;
  editorRef : option string;
  pending : list nat;
  emitted : list client_msg
}.

Definition init : Client :=
  mkClient "" false "javascript" template_javascript ["Ready to execute..."] 0
           false None [] [].

Definition setRoomId (v : string) (c : Client) : Client :=
  mkClient v (joined c) (language c) (code c) (output c) (userCount c)
           (isRemoteUpdate c) (editorRef c) (pending c) (emitted c).

Definition setJoined (v : bool) (c : Client) : Client :=
  mkClient (roomId c) v (language c) (code c) (output c) (userCount c)
           (isRemoteUpdate c) (editorRef c) (pending c) (emitted c).

Definition setLanguage (v : string) (c : Client) : Client :=
  mkClient (roomId c) (joined c) v (code c) (output c) (userCount c)
           (isRemoteUpdate c) (editorRef c) (pending c) (emitted c).

Definition setCode (v : string) (c : Client) : Client :=
  mkClient (roomId c) (joined c) (language c) v (output c) (userCount c)
           (isRemoteUpdate c) (editorRef c) (pending c) (emitted c).

Definition setOutput (v : list string) (c : Client) : Client :=
  mkClient (roomId c) (joined c) (language c) (code c) v (userCount c)
           (isRemoteUpdate c) (editorRef c) (pending c) (emitted c).

Definition setUserCount (v : nat) (c : Client) : Client :=
  mkClient (roomId c) (joined c) (language c) (code c) (output c) v
           (isRemoteUpdate c) (editorRef c) (pending c) (emitted c).

(** [isRemoteUpdate.current = v]. *)
Definition set_isRemoteUpdate (v : bool) (c : Client) : Client :=
  mkClient (roomId c) (joined c) (language c) (code c) (output c) (userCount c)
           v (editorRef c) (pending c) (emitted c).

Definition set_editorRef (v : option string) (c : Client) : Client :=
  mkClient (roomId c) (joined c) (language c) (code c) (output c) (userCount c)
           (isRemoteUpdate c) v (pending c) (emitted c).

Definition set_pending (v : list nat) (c : Client) : Client :=
  mkClient (roomId c) (joined c) (language c) (code c) (output c) (userCount c)
           (isRemoteUpdate c) (editorRef c) v (emitted c).

Definition set_emitted (v : list client_msg) (c : Client) : Client :=
  mkClient (roomId c) (joined c) (language c) (code c) (output c) (userCount c)
           (isRemoteUpdate c) (editorRef c) (pending c) v.

(** [socket.emit(..)]. *)
Definition socket_emit (m : client_msg) (c : Client) : Client :=
  set_emitted (emitted c ++ [m])%list c.

(** [setTimeout(() => { isRemoteUpdate.current = false; }, ms)]. *)
Definition setTimeout_reset (ms : nat) (c : Client) : Client :=
  set_pending (pending c ++ [ms])%list c.

(** One of those callbacks runs. *)
Definition fire_timeout (i : nat) (c : Client) : Client :=
  match pending c !! i with
  | Some _ => set_isRemoteUpdate false (set_pending (delete i (pending c)) c)
  | None => c
  end.

(** ** The editor

    Monaco is a widget outside the program.  The component creates it
    with [defaultValue={code}], calls [setValue], [executeEdits] and
    [getValue] on it, and listens to its content changes; what the widget
    does with a text is its own affair, so the component is written over
    any editor:
    - [held v] is the text the model holds once it was created with, or
      [setValue] was called with, [v] (Monaco settles on one line ending
      and drops a byte order mark, so this need not be [v]);
    - [flushed old v] is what the change event of [setValue(v)] reports as
      [event.changes] when the model held [old];
    - [executeEdits d old] is the text after
      [executeEdits("remote", d)] on a model holding [old], or [None]
      when the call throws (Monaco refuses overlapping ranges);
    - [edited d old] is the text after an edit of the user that the change
      event reports as [d], the model having held [old].
    [editorRef] of the component's state holds what [getValue()] returns,
    once the editor is mounted. *)
Class Editor := {
  held : string → string;
  flushed : string → string → Delta;
  executeEdits : Delta → string → option string;
  edited : Delta → string → string
}.

Section Component.
Context {E : Editor}.

(** The listener [handleEditorDidMount] gives to
    [editor.onDidChangeModelContent]; the editor calls it, before the
    mutating call returns, on every change of its content. *)
Definition onDidChangeModelContent (changes : Delta) (c : Client) : Client :=
  if isRemoteUpdate c then c
  else
    match editorRef c with
    | Some currentCode =>
        socket_emit (code_change (roomId c) currentCode (Some changes))
                    (setCode currentCode c)
    | None => c
    end.

(** [handleEditorDidMount]: the editor starts with [defaultValue={code}]. *)
Definition handleEditorDidMount (c : Client) : Client :=
  set_editorRef (Some (held (code c))) c.

(** [editor.setValue(v)]. *)
Definition editor_setValue (v : string) (c : Client) : Client :=
  match editorRef c with
  | Some old =>
      onDidChangeModelContent (flushed old v) (set_editorRef (Some (held v)) c)
  | None => c
  end.

(** [editor.executeEdits("remote", d)]: [None] when the call throws. *)
Definition editor_executeEdits (d : Delta) (c : Client) : option Client :=
  match editorRef c with
  | Some old =>
      new ← executeEdits d old;
      Some (onDidChangeModelContent d (set_editorRef (Some new) c))
  | None => Some c
  end.

(** The user makes an edit, which the editor reports as [d]. *)
Definition user_types (d : Delta) (c : Client) : Client :=
  match editorRef c with
  | Some old => onDidChangeModelContent d (set_editorRef (Some (edited d old)) c)
  | None => c
  end.

(** [socket.on("sync_state", ..)]. *)
Definition on_sync_state (state : RoomData) (c : Client) : Client :=
  let c := set_isRemoteUpdate true c in
  let c := match editorRef c with
           | Some _ => editor_setValue (Wire.code state) c
           | None => c
           end in
  let c := setCode (Wire.code state) c in
  let c := setLanguage (Wire.language state) c in
  let c := setOutput (Wire.output state) c in
  setTimeout_reset 100 c.

(** [socket.on("receive_code", ..)].  When [executeEdits] throws, the
    listener ends there: the two statements after the call do not run. *)
Definition on_receive_code (code : string) (delta : option Delta) (c : Client) : Client :=
  match editorRef c with
  | None => c
  | Some _ =>
      match delta with
      | Some d =>
          let c := set_isRemoteUpdate true c in
          match editor_executeEdits d c with
          | Some c =>
              let c := setCode (default "" (editorRef c)) c in
              set_isRemoteUpdate false c
          | None => c
          end
      | None =>
          let c := set_isRemoteUpdate true c in
          let c := editor_setValue code c in
          let c := setCode code c in
          setTimeout_reset 50 c
      end
  end.

(** The socket listeners of the [useEffect]; the voice events drive the
    peer connections only and leave this state alone. *)
Definition on_message (m : server_msg) (c : Client) : Client :=
  match m with
  | sync_state state => on_sync_state state c
  | receive_code code delta => on_receive_code code delta c
  | receive_language lang => setLanguage lang c
  | receive_output out => setOutput out c
  | user_count cnt => setUserCount cnt c
  | all_users _ | user_joined _ _ | receiving_returned_signal _ _ | user_left _ => c
  end.

End Component.

(** ** Joining, leaving, clearing *)

(** Strings are byte strings: a JavaScript string in its UTF-8 encoding.
    [id.trim() !== ""] fails exactly when [id] is made of the white space
    and line terminators of ECMAScript: U+0009 to U+000D, U+0020, U+00A0,
    U+1680, U+2000 to U+200A, U+2028, U+2029, U+202F, U+205F, U+3000 and
    U+FEFF. *)
Definition is_space (a : ascii) : bool :=
  let n := nat_of_ascii a in
  Nat.eqb n 32 || (Nat.leb 9 n && Nat.leb n 13).

Definition is_space2 (a b : nat) : bool :=
  Nat.eqb a 194 && Nat.eqb b 160.

Definition is_space3 (a b c : nat) : bool :=
  (Nat.eqb a 225 && Nat.eqb b 154 && Nat.eqb c 128) ||
  (Nat.eqb a 226 && Nat.eqb b 128 &&
     ((Nat.leb 128 c && Nat.leb c 138) || Nat.eqb c 168 || Nat.eqb c 169 ||
      Nat.eqb c 175)) ||
  (Nat.eqb a 226 && Nat.eqb b 129 && Nat.eqb c 159) ||
  (Nat.eqb a 227 && Nat.eqb b 128 && Nat.eqb c 128) ||
  (Nat.eqb a 239 && Nat.eqb b 187 && Nat.eqb c 191).

Fixpoint blank (id : string) : bool :=
  match id with
  | EmptyString => true
  | String a id1 =>
      if is_space a then blank id1
      else
        match id1 with
        | EmptyString => false
        | String b id2 =>
            if is_space2 (nat_of_ascii a) (nat_of_ascii b) then blank id2
            else
              match id2 with
              | EmptyString => false
              | String c id3 =>
                  if is_space3 (nat_of_ascii a) (nat_of_ascii b) (nat_of_ascii c)
                  then blank id3
                  else false
              end
        end
  end.

Definition joinRoom (id : string) (c : Client) : Client :=
  if blank id then c
  else setJoined true (setRoomId id (socket_emit (join_room id) c)).


(** The Clear button of the terminal pane. *)
Definition clear_click (c : Client) : Client :=
  socket_emit (output_change (roomId c) []) (setOutput [] c).

(** The Clear button as the first component of the second client file
    writes it: [onClick={()=>setOutput([])}]. *)
Definition clear_click_local (c : Client) : Client :=
  setOutput [] c.

(** ** An editor to run scenarios on

    A text buffer that does with a text what Monaco does as far as the
    component can see it: the text given to the model loses a leading byte
    order mark and gets one line ending throughout, carriage return and
    line feed if more than half of its line breaks have a carriage return,
    line feed otherwise; the changes of a delta are all placed in the text
    as it was before the call, each at its offset, a delta with two
    changes that overlap is refused, and a range that reaches past the end
    of the text stops there.  A change is placed by its offset, which is
    where the range it carries lies when the delta is replayed on the text
    it was made on. *)
Definition cr : ascii := ascii_of_nat 13.

Definition lf : ascii := ascii_of_nat 10.

(** The numbers of lone carriage returns, lone line feeds, and pairs. *)
Fixpoint line_breaks (s : string) : nat * nat * nat :=
  match s with
  | EmptyString => (0, 0, 0)
  | String a s1 =>
      if Ascii.eqb a cr then
        match s1 with
        | String b s2 =>
            if Ascii.eqb b lf
            then let '(n, m, k) := line_breaks s2 in (n, m, S k)
            else let '(n, m, k) := line_breaks s1 in (S n, m, k)
        | EmptyString => (1, 0, 0)
        end
      else if Ascii.eqb a lf
      then let '(n, m, k) := line_breaks s1 in (n, S m, k)
      else line_breaks s1
  end.

Fixpoint with_line_ending (eol : string) (s : string) : string :=
  match s with
  | EmptyString => EmptyString
  | String a s1 =>
      if Ascii.eqb a cr then
        match s1 with
        | String b s2 =>
            if Ascii.eqb b lf then eol ++ with_line_ending eol s2
            else eol ++ with_line_ending eol s1
        | EmptyString => eol
        end
      else if Ascii.eqb a lf then eol ++ with_line_ending eol s1
      else String a (with_line_ending eol s1)
  end.

Definition without_bom (s : string) : string :=
  match s with
  | String a (String b (String c rest)) =>
      if Nat.eqb (nat_of_ascii a) 239 && Nat.eqb (nat_of_ascii b) 187 &&
         Nat.eqb (nat_of_ascii c) 191
      then rest else s
  | _ => s
  end.

Definition normalize (v : string) : string :=
  let v := without_bom v in
  let '(n, m, k) := line_breaks v in
  if Nat.ltb (n + m + k) (2 * (n + k))
  then with_line_ending (String cr (String lf EmptyString)) v
  else with_line_ending (String lf EmptyString) v.

(** The changes of a delta by offset, those at the same offset in the order
    given. *)
Fixpoint insert_change (ch : Change) (l : list Change) : list Change :=
  match l with
  | [] => [ch]
  | c :: l1 =>
      if Nat.ltb (rangeOffset ch) (rangeOffset c) then ch :: l
      else c :: insert_change ch l1
  end.

Definition sort_changes (d : Delta) : list Change :=
  fold_left (λ acc ch, insert_change ch acc) d [].

Fixpoint overlapping (l : list Change) : bool :=
  match l with
  | c1 :: ((c2 :: _) as l1) =>
      Nat.ltb (rangeOffset c2) (rangeOffset c1 + rangeLength c1) || overlapping l1
  | _ => false
  end.

(** The text from position [pos] on, with the sorted changes placed. *)
Fixpoint splice (pos : nat) (l : list Change) (buf : string) : string :=
  match l with
  | [] => substring pos (String.length buf - pos) buf
  | ch :: l1 =>
      substring pos (rangeOffset ch - pos) buf ++ text ch ++
      splice (rangeOffset ch + rangeLength ch) l1 buf
  end.

Definition applyEdits (d : Delta) (buf : string) : option string :=
  let l := sort_changes d in
  if overlapping l then None else Some (splice 0 l buf).

#[global] Instance text_buffer : Editor := {|
  held := normalize;
  flushed old v := [mkChange 0 (String.length old) (normalize v)];
  executeEdits := applyEdits;
  edited d old := default old (applyEdits d old)
|}.

(** A mounted editor in room "r". *)
Definition mounted : Client := handleEditorDidMount (joinRoom "r" init).

End Client.

(** ** Server and clients together *)
Module System.
Import Wire.

Record System := mkSystem {
  server : Server.State;
  clients : gmap string Client.Client
}.

Definition init : System := mkSystem Server.init ∅.

Section Run.
Context {E : Client.Editor}.

(** Every recipient of an emission runs its listener for it. *)
Definition deliver1 (cs : gmap string Client.Client) (e : emission)
  : gmap string Client.Client :=
  map_imap (λ sid c,
    Some (if decide (sid ∈ recipients e) then Client.on_message (payload e) c else c)) cs.

Definition deliver (out : list emission) (cs : gmap string Client.Client)
  : gmap string Client.Client :=
  fold_left deliver1 out cs.

(** A message of connection [sid] reaches the server. *)
Definition send (sid : string) (sys : System) (m : client_msg) : option System :=
  '(s, out) ← Server.step (server sys) (Server.Recv sid m);
  Some (mkSystem s (deliver out (clients sys))).

Fixpoint send_all (sid : string) (ms : list client_msg) (sys : System) : option System :=
  match ms with
  | [] => Some sys
  | m :: ms => sys ← send sid sys m; send_all sid ms sys
  end.

(** The user of connection [sid] does [f]; what the client emits while
    doing it goes to the server, in order. *)
Definition act (sid : string) (f : Client.Client → Client.Client) (sys : System)
  : option System :=
  c ← clients sys !! sid;
  let c := f (Client.set_emitted [] c) in
  send_all sid (Client.emitted c)
    (mkSystem (server sys) (<[sid := Client.set_emitted [] c]> (clients sys))).

(** A page is opened: a fresh component on a fresh connection. *)
Definition connect (sid : string) (sys : System) : option System :=
  '(s, out) ← Server.step (server sys) (Server.Connect sid);
  Some (mkSystem s (<[sid := Client.init]> (deliver out (clients sys)))).

(** The timer of a pending cleanup fires on the server. *)
Definition cleanup (sys : System) : option System :=
  '(s, out) ← Server.step (server sys) Server.Timeout;
  Some (mkSystem s (deliver out (clients sys))).

(** The page of connection [sid] is closed. *)
Definition close (sid : string) (sys : System) : option System :=
  '(s, out) ← Server.step (server sys) (Server.Disconnect sid);
  Some (mkSystem s (deliver out (delete sid (clients sys)))).

End Run.

(** Two pages join room "abc123" and mount their editors, each after its
    snapshot timer has run. *)
Definition two_editors : option System :=
  sys ← connect "A" init;
  sys ← connect "B" sys;
  sys ← act "A" (Client.joinRoom "abc123") sys;
  sys ← act "A" Client.handleEditorDidMount sys;
  sys ← act "A" (Client.fire_timeout 0) sys;
  sys ← act "B" (Client.joinRoom "abc123") sys;
  sys ← act "B" Client.handleEditorDidMount sys;
  act "B" (Client.fire_timeout 0) sys.

(** What page [sid] shows: buffer, code, language, output, member count. *)
Definition view (sid : string) (sys : System)
  : option (option string * string * string * list string * nat) :=
  c ← clients sys !! sid;
  Some (Client.editorRef c, Client.code c, Client.language c, Client.output c,
        Client.userCount c).

(** Two pages open on room "r". *)
Definition two_clients : option System :=
  sys ← connect "A" init;
  sys ← connect "B" sys;
  sys ← act "A" (Client.joinRoom "r") sys;
  act "B" (Client.joinRoom "r") sys.

(** The user of page "A" presses Clear once, and twice in a row. *)
Definition clear_once (clear : Client.Client → Client.Client) : option System :=
  sys ← two_clients; act "A" clear sys.

Definition clear_twice (clear : Client.Client → Client.Client) : option System :=
  sys ← clear_once clear; act "A" clear sys.

(** The output of room "r" as page "A", the room store and page "B" hold it. *)
Definition outputs (sys : System)
  : option (list string) * option (list string) * option (list string) :=
  (Client.output <$> clients sys !! "A",
   Wire.output <$> Server.rooms (server sys) !! "r",
   Client.output <$> clients sys !! "B").

End System.

(** ** What the server's bookkeeping keeps true *)
Module Ledger.
Import Wire Server.

(** What the bookkeeping of the server keeps true: a recorded room with a
    truthy key has its connection connected and in the room's group, every
    recorded room is in the store, and no cleanup is pending for the empty
    key. *)
Definition recorded_inv (s : State) : Prop :=
  (∀ x r, socketRoomMap s !! x = Some r → r ≠ "" →
     x ∈ sockets s ∧ x ∈ members s r) ∧
  (∀ x r, socketRoomMap s !! x = Some r → is_Some (rooms s !! r)) ∧
  (∀ r y, (r, y) ∈ timers s → r ≠ "").

(** One connection in the room whose key is the empty string. *)
Definition nameless : list event :=
  [Connect "A"; Recv "A" (join_room "")].

End Ledger.

(** ** The rest of the component: language, run, and what the user does *)
Module Page.
Import Wire Client.

(** The keys of [CODE_TEMPLATES] and [LANGUAGES], which are also the three
    options of the language [select]. *)
Inductive LangKey := javascript | python | java.

Definition key_name (k : LangKey) : string :=
  match k with
  | javascript => "javascript"
  | python => "python"
  | java => "java"
  end.

(** The key a language name stands for, if it is one of the three. *)
Definition key_of (language : string) : option LangKey :=
  if String.eqb language "javascript" then Some javascript
  else if String.eqb language "python" then Some python
  else if String.eqb language "java" then Some java
  else None.

Definition quote : string := String (ascii_of_nat 34) EmptyString.

Definition CODE_TEMPLATES (k : LangKey) : string :=
  match k with
  | javascript => template_javascript
  | python => "# Welcome to SyncCode" ++ nl ++ "# Start typing your Python..."
  | java =>
      "// Welcome to SyncCode" ++ nl ++ nl ++
      "public class Main {" ++ nl ++
      "  public static void main(String[] args) {" ++ nl ++
      "    System.out.println(" ++ quote ++ "Hello World" ++ quote ++ ");" ++ nl ++
      "  }" ++ nl ++ "}"
  end.

Record LanguageConfig := mkLanguageConfig {
  name : string;
  version : string;
  file : string
}.

Definition LANGUAGES (k : LangKey) : LanguageConfig :=
  match k with
  | javascript => mkLanguageConfig "JavaScript" "18.15.0" "index.js"
  | python => mkLanguageConfig "Python" "3.10.0" "main.py"
  | java => mkLanguageConfig "Java" "15.0.2" "Main.java"
  end.

Section Language.
Context {E : Editor}.

(** [handleLanguageChange], the [onChange] of the [select]. *)
Definition handleLanguageChange (k : LangKey) (c : Client) : Client :=
  let newLang := key_name k in
  let c := setLanguage newLang c in
  let c := socket_emit (language_change (roomId c) newLang) c in
  let newCode := CODE_TEMPLATES k in
  let c := match editorRef c with
           | Some _ => editor_setValue newCode c
           | None => c
           end in
  let c := setCode newCode c in
  socket_emit (code_change (roomId c) newCode None) c.

End Language.

(** [LANGUAGES[language as keyof typeof LANGUAGES]] on the [language]
    state, a string that a peer may have set to anything: an entry of the
    table; a property that the table, as every object, inherits, whose
    [version] and [file] are [undefined]; or [undefined]. *)
Inductive Lookup :=
| Own (k : LangKey)
| Inherited
| Missing.

Definition object_prototype_keys : list string :=
  ["constructor"; "__proto__"; "hasOwnProperty"; "isPrototypeOf";
   "propertyIsEnumerable"; "toLocaleString"; "toString"; "valueOf";
   "__defineGetter__"; "__defineSetter__"; "__lookupGetter__"; "__lookupSetter__"].

Definition lookup_LANGUAGES (language : string) : Lookup :=
  match key_of language with
  | Some k => Own k
  | None =>
      if bool_decide (language ∈ object_prototype_keys) then Inherited else Missing
  end.

(** The body of the request [runCode] posts to the execution service. *)
Record Request := mkRequest {
  req_language : string;
  req_version : option string;
  req_file : option string;
  req_content : string
}.

(** [s.split("\n")]. *)
Fixpoint split (s : string) : list string :=
  match s with
  | EmptyString => [EmptyString]
  | String a s' =>
      if Ascii.eqb a (ascii_of_nat 10) then EmptyString :: split s'
      else match split s' with
           | [] => [String a EmptyString]
           | l :: ls => String a l :: ls
           end
  end.

(** [runCode] up to its [await]: the output is set to "Running..." here
    and for the room, and the request is built from the [language] and
    [code] state.  When [LANGUAGES[language]] is [undefined], reading
    [config.version] throws inside the [try]; the [catch] then runs at
    once and nothing is posted. *)
Definition runCode_click (c : Client) : Client * option Request :=
  let c := setOutput ["Running..."] c in
  let c := socket_emit (output_change (roomId c) ["Running..."]) c in
  match lookup_LANGUAGES (language c) with
  | Own k =>
      let config := LANGUAGES k in
      (c, Some (mkRequest (language c) (Some (version config)) (Some (file config))
                          (code c)))
  | Inherited => (c, Some (mkRequest (language c) None None (code c)))
  | Missing => (setOutput ["Error executing code."] c, None)
  end.

(** [runCode] after the [await]: the service answered with
    [res.data.run.output] ([Some]), or the request failed ([None]). *)
Definition runCode_settled (res : option string) (c : Client) : Client :=
  match res with
  | Some out =>
      let lines := split out in
      socket_emit (output_change (roomId c) lines) (setOutput lines c)
  | None => setOutput ["Error executing code."] c
  end.

(** The component with the state of the Run button. *)
Record Runner := mkRunner {
  page : Client;
  isRunning : bool
}.

Definition runCode_begin (r : Runner) : Runner * option Request :=
  let '(c, rq) := runCode_click (page r) in
  (mkRunner c (match rq with Some _ => true | None => false end), rq).

Definition runCode_end (res : option string) (r : Runner) : Runner :=
  mkRunner (runCode_settled res (page r)) false.

(** What can happen to a page once it has joined. *)
Inductive action :=
| Hears (m : server_msg)
| Types (d : Delta)
| Fires (i : nat)
| Mounts
| Picks (k : LangKey)
| Clears
| Runs
| Settles (res : option string).

Section Actions.
Context {E : Editor}.

Definition perform (c : Client) (a : action) : Client :=
  match a with
  | Hears m => on_message m c
  | Types d => user_types d c
  | Fires i => fire_timeout i c
  | Mounts => handleEditorDidMount c
  | Picks k => handleLanguageChange k c
  | Clears => clear_click c
  | Runs => fst (runCode_click c)
  | Settles res => runCode_settled res c
  end.

Definition perform_all (c : Client) (acts : list action) : Client :=
  fold_left perform acts c.

(** The [code] state holds what the mounted editor shows, or a string
    that the editor holds as what it shows. *)
Definition synced (c : Client) : Prop :=
  editorRef c = None ∨ editorRef c = Some (code c) ∨
  editorRef c = Some (held (code c)).

(** The user types only while the flag is clear. *)
Fixpoint unraced (c : Client) (acts : list action) : Prop :=
  match acts with
  | [] => True
  | a :: acts =>
      match a with
      | Types _ => isRemoteUpdate c = false
      | _ => True
      end ∧ unraced (perform c a) acts
  end.

(** [executeEdits] accepts delta [d] on what the page's editor holds. *)
Definition accepted (d : Delta) (c : Client) : Prop :=
  ∀ old, editorRef c = Some old → is_Some (executeEdits d old).

(** Every delta the page hears is accepted by its editor. *)
Fixpoint unthrown (c : Client) (acts : list action) : Prop :=
  match acts with
  | [] => True
  | a :: acts =>
      match a with
      | Hears (receive_code _ (Some d)) => accepted d c
      | _ => True
      end ∧ unthrown (perform c a) acts
  end.

(** The flag is set only while a reset is pending. *)
Definition flag_backed (c : Client) : Prop :=
  isRemoteUpdate c = true → pending c ≠ [].

End Actions.

End Page.

(** ** Voice: the peer connections of a page *)
Module Voice.
Import Wire.

Record PeerNode := mkPeerNode {
  peerID : string;
  peer : nat
}.

(** A [SimplePeer] instance as far as the component deals with it: how it
    was constructed, the two names its "signal" listener closes over (for
    an initiator [userToSignal] and [callerID], otherwise [callerID]
    alone), the signals handed to it with [signal(..)], and whether
    [destroy()] was called.  Instances live in [instances]; a [PeerNode]
    refers to one by its position, so the node kept in the ref and the
    node kept in the state share their instance. *)
Record Instance := mkInstance {
  initiator : bool;
  userToSignal : string;
  callerID : string;
  signals : list Signal;
  destroyed : bool
}.

Record Voice := mkVoice {
  socket_id : string;
  roomId : string;
  audioStream : bool;
  voiceActive : bool;
  isMuted : bool;
  track_enabled : bool;
  peers : list PeerNode;
  peersRef : list PeerNode;
  instances : list Instance;
  emitted : list client_msg
}.

Definition init (socket_id roomId : string) : Voice :=
  mkVoice socket_id roomId false false false true [] [] [] [].

Definition setPeers (f : list PeerNode → list PeerNode) (v : Voice) : Voice :=
  mkVoice (socket_id v) (roomId v) (audioStream v) (voiceActive v) (isMuted v)
          (track_enabled v) (f (peers v)) (peersRef v) (instances v) (emitted v).

Definition set_peersRef (f : list PeerNode → list PeerNode) (v : Voice) : Voice :=
  mkVoice (socket_id v) (roomId v) (audioStream v) (voiceActive v) (isMuted v)
          (track_enabled v) (peers v) (f (peersRef v)) (instances v) (emitted v).

Definition set_instances (f : list Instance → list Instance) (v : Voice) : Voice :=
  mkVoice (socket_id v) (roomId v) (audioStream v) (voiceActive v) (isMuted v)
          (track_enabled v) (peers v) (peersRef v) (f (instances v)) (emitted v).

Definition socket_emit (m : client_msg) (v : Voice) : Voice :=
  mkVoice (socket_id v) (roomId v) (audioStream v) (voiceActive v) (isMuted v)
          (track_enabled v) (peers v) (peersRef v) (instances v)
          (emitted v ++ [m])%list.

(** [peer.signal(sig)] and [peer.destroy()]. *)
Definition signal (sig : Signal) (i : Instance) : Instance :=
  mkInstance (initiator i) (userToSignal i) (callerID i) (signals i ++ [sig])%list
             (destroyed i).

Definition destroy (i : Instance) : Instance :=
  mkInstance (initiator i) (userToSignal i) (callerID i) (signals i) true.

(** [createPeer(u, c, stream)]: the new instance's handle with the state. *)
Definition createPeer (u c : string) (v : Voice) : nat * Voice :=
  (List.length (instances v),
   set_instances (λ l, (l ++ [mkInstance true u c [] false])%list) v).

(** [addPeer(sig, c, stream)]. *)
Definition addPeer (sig : Signal) (c : string) (v : Voice) : nat * Voice :=
  (List.length (instances v),
   set_instances (λ l, (l ++ [mkInstance false "" c [sig] false])%list) v).

(** The instance [h] has produced a signal: its "signal" listener runs. *)
Definition on_signal (h : nat) (sig : Signal) (v : Voice) : Voice :=
  match instances v !! h with
  | Some i =>
      if initiator i
      then socket_emit (sending_signal (userToSignal i) (callerID i) sig) v
      else socket_emit (returning_signal sig (callerID i)) v
  | None => v
  end.

(** [peersRef.current.find(p => p.peerID === id)]. *)
Definition find_peer (id : string) (l : list PeerNode) : option PeerNode :=
  List.find (λ p, String.eqb (peerID p) id) l.

(** [socket.on("all_users", ..)]. *)
Definition on_all_users (users : list string) (v : Voice) : Voice :=
  if audioStream v then
    let '(v, peersArr) :=
      fold_left (λ '(v, peersArr) userID,
        let '(h, v) := createPeer userID (socket_id v) v in
        (set_peersRef (λ l, (l ++ [mkPeerNode userID h])%list) v,
         (peersArr ++ [mkPeerNode userID h])%list)) users (v, []) in
    setPeers (λ prev, (prev ++ peersArr)%list) v
  else v.

(** [socket.on("user_joined", ..)]. *)
Definition on_user_joined (sig : Signal) (caller : string) (v : Voice) : Voice :=
  if audioStream v then
    let '(h, v) := addPeer sig caller v in
    let v := set_peersRef (λ l, (l ++ [mkPeerNode caller h])%list) v in
    setPeers (λ prev, (prev ++ [mkPeerNode caller h])%list) v
  else v.

(** [socket.on("receiving_returned_signal", ..)]. *)
Definition on_receiving_returned_signal (sig : Signal) (id : string) (v : Voice) : Voice :=
  match find_peer id (peersRef v) with
  | Some item => set_instances (alter (signal sig) (peer item)) v
  | None => v
  end.

(** [socket.on("user_left", ..)]. *)
Definition on_user_left (id : string) (v : Voice) : Voice :=
  let v := match find_peer id (peersRef v) with
           | Some peerObj => set_instances (alter destroy (peer peerObj)) v
           | None => v
           end in
  let newPeers := List.filter (λ p, negb (String.eqb (peerID p) id)) (peersRef v) in
  let v := set_peersRef (λ _, newPeers) v in
  setPeers (λ _, newPeers) v.

(** The voice listeners of the [useEffect]. *)
Definition on_message (m : server_msg) (v : Voice) : Voice :=
  match m with
  | all_users users => on_all_users users v
  | user_joined sig caller => on_user_joined sig caller v
  | receiving_returned_signal sig id => on_receiving_returned_signal sig id v
  | user_left id => on_user_left id v
  | _ => v
  end.

(** [startVoice] once [getUserMedia] has given a stream. *)
Definition startVoice (v : Voice) : Voice :=
  let v := mkVoice (socket_id v) (roomId v) true true (isMuted v) (track_enabled v)
                   (peers v) (peersRef v) (instances v) (emitted v) in
  socket_emit (request_users (roomId v)) v.

Definition toggleMute (v : Voice) : Voice :=
  if audioStream v then
    let enabled := negb (track_enabled v) in
    mkVoice (socket_id v) (roomId v) (audioStream v) (voiceActive v) (negb enabled)
            enabled (peers v) (peersRef v) (instances v) (emitted v)
  else v.

Definition hear_all (v : Voice) (ms : list server_msg) : Voice :=
  fold_left (λ v m, on_message m v) ms v.

(** Two pages with a stream, on connections "A" and "B" in room "r". *)
Definition live : Voice := startVoice (init "A" "r").

Definition live_b : Voice := startVoice (init "B" "r").

End Voice.

(** ** Systems to try things on *)
Module Scenes.
Import Wire System.

(** The two mounted pages of [two_editors], the two pages of
    [two_clients], and one page that has not joined yet. *)
Definition editing : System := default System.init two_editors.

Definition paired : System := default System.init two_clients.

Definition arrived : System := default System.init (connect "A" System.init).

Definition page (sid : string) (sys : System) : Client.Client :=
  default Client.init (clients sys !! sid).

End Scenes.

(** * Properties *)

Module AdapterFacts.
Import Adapter.
#[local] Set Warnings "-clear-no-such-hyp".

Lemma group_add sid room a r :
  group (add sid room a) r =
  if decide (room = r) then {[sid]} ∪ group a r else group a r.
Proof.
  unfold group, listing, add. destruct (decide (room = r)) as [->|E].
  - rewrite lookup_insert_eq. cbn. destruct (decide _) as [Hin|Hin].
    + apply set_eq. intros y. rewrite elem_of_union, elem_of_singleton.
      rewrite !elem_of_list_to_set. unfold listing in Hin. naive_solver.
    + rewrite list_to_set_app_L. cbn. set_solver.
  - by rewrite lookup_insert_ne.
Qed.

Lemma group_delAll sid a r : group (delAll sid a) r = group a r ∖ {[sid]}.
Proof.
  unfold group, listing, delAll. rewrite lookup_omap.
  destruct (a !! r) as [l|]; simpl; [|set_solver].
  assert (list_to_set (filter (λ y, y ≠ sid) l) =@{gset string}
          list_to_set l ∖ {[sid]}) as Hf.
  { apply set_eq. intros y.
    rewrite elem_of_difference, !elem_of_list_to_set, list_elem_of_filter.
    set_solver. }
  unfold strip. destruct (decide _) as [E|E]; simpl; [|done].
  rewrite <- Hf, E. done.
Qed.

Lemma group_empty r : group ∅ r = ∅.
Proof. unfold group, listing. by rewrite lookup_empty. Qed.

Lemma listing_group a r y : y ∈ listing a r ↔ y ∈ group a r.
Proof. unfold group. by rewrite elem_of_list_to_set. Qed.



End AdapterFacts.

Module ServerFacts.
Import Wire Server.
Local Open Scope list_scope.
#[local] Set Warnings "-clear-no-such-hyp".

(** Case analysis on every [decide] of the goal. *)
Ltac decs :=
  repeat match goal with
         | |- context [decide ?P] => destruct (decide P)
         | H : context [decide ?P] |- _ => destruct (decide P)
         end.

Lemma bool_decide_is_Some_lookup (m : gmap string RoomData) k :
  bool_decide (is_Some (m !! k)) = match m !! k with Some _ => true | None => false end.
Proof.
  destruct (m !! k) eqn:E.
  - apply bool_decide_eq_true. eauto.
  - apply bool_decide_eq_false. by intros [? ?].
Qed.

(** The join listener, written out. *)
Lemma on_join_room_eq sid roomId s :
  let rd := default defaultRoom (rooms s !! roomId) in
  let s' := mkState (<[roomId := rd]> (rooms s))
                    (<[sid := roomId]> (socketRoomMap s))
                    (Adapter.add sid roomId (adapter s))
                    (sockets s) (timers s) in
  on_join_room sid roomId s =
  Some (s', [Emit (members s' roomId) (user_count (size (members s' roomId)));
             Emit (members s' sid) (sync_state rd)]).
Proof.
  unfold on_join_room. cbn. rewrite bool_decide_is_Some_lookup.
  destruct (rooms s !! roomId) as [rd|] eqn:E; cbn.
  - rewrite E. cbn. unfold io_to, members; cbn. rewrite (insert_id _ _ _ E). done.
  - rewrite lookup_insert_eq. cbn. done.
Qed.

Lemma step_total s ev : is_Some (step s ev).
Proof.
  destruct ev as [x|x m|x|]; cbn.
  - destruct (decide _); eauto.
  - destruct (decide _); eauto. destruct m; cbn; eauto.
    + rewrite on_join_room_eq. eauto.
    + unfold on_code_change. rewrite bool_decide_is_Some_lookup.
      destruct (rooms s !! roomId); cbn; eauto.
    + unfold on_language_change. rewrite bool_decide_is_Some_lookup.
      destruct (rooms s !! roomId); cbn; eauto.
    + unfold on_output_change. rewrite bool_decide_is_Some_lookup.
      destruct (rooms s !! roomId); cbn; eauto.
  - destruct (decide _); eauto. unfold on_disconnect; cbn.
    destruct (socketRoomMap s !! x); eauto. destruct (truthy _); eauto.
  - destruct (timers s) as [|[r x] rest]; eauto.
Qed.

Lemma on_code_change_eq sid roomId code delta s :
  on_code_change sid roomId code delta s =
  match rooms s !! roomId with
  | Some rd =>
      Some (set_rooms (<[roomId := mkRoomData code (language rd) (output rd)]>) s,
            [Emit (members s roomId ∖ members s sid) (receive_code code delta)])
  | None => Some (s, [])
  end.
Proof.
  unfold on_code_change. rewrite bool_decide_is_Some_lookup.
  by destruct (rooms s !! roomId).
Qed.

Lemma on_language_change_eq sid roomId lang s :
  on_language_change sid roomId lang s =
  match rooms s !! roomId with
  | Some rd =>
      Some (set_rooms (<[roomId := mkRoomData (code rd) lang (output rd)]>) s,
            [Emit (members s roomId ∖ members s sid) (receive_language lang)])
  | None => Some (s, [])
  end.
Proof.
  unfold on_language_change. rewrite bool_decide_is_Some_lookup.
  by destruct (rooms s !! roomId).
Qed.

Lemma on_output_change_eq sid roomId out s :
  on_output_change sid roomId out s =
  match rooms s !! roomId with
  | Some rd =>
      Some (set_rooms (<[roomId := mkRoomData (code rd) (language rd) out]>) s,
            [Emit (members s roomId ∖ members s sid) (receive_output out)])
  | None => Some (s, [])
  end.
Proof.
  unfold on_output_change. rewrite bool_decide_is_Some_lookup.
  by destruct (rooms s !! roomId).
Qed.

Lemma truthy_spec r : truthy r = true ↔ r ≠ "".
Proof.
  unfold truthy. destruct (String.eqb_spec r ""); simpl; split; try done.
Qed.

Lemma step_inv s ev s' out : step s ev = Some (s', out) → step_spec s ev s' out.
Proof.
  destruct ev as [x|x m|x|]; cbn.
  - destruct (decide _); intros; simplify_eq; by constructor.
  - destruct (decide _); [|intros; simplify_eq; by constructor].
    destruct m; cbn.
    + rewrite on_join_room_eq. cbn. intros; simplify_eq. by constructor.
    + unfold on_request_users. intros; simplify_eq. by constructor.
    + unfold on_sending_signal. intros; simplify_eq. by constructor.
    + unfold on_returning_signal. intros; simplify_eq. by constructor.
    + rewrite on_code_change_eq. destruct (rooms s !! roomId) eqn:E;
        intros; simplify_eq; by econstructor.
    + rewrite on_language_change_eq. destruct (rooms s !! roomId) eqn:E;
        intros; simplify_eq; by econstructor.
    + rewrite on_output_change_eq. destruct (rooms s !! roomId) eqn:E;
        intros; simplify_eq; by econstructor.
    + intros; simplify_eq. by constructor.
  - destruct (decide _); [|intros; simplify_eq; by constructor].
    unfold on_disconnect; cbn. destruct (socketRoomMap s !! x) as [r|] eqn:E.
    + destruct (truthy r) eqn:T; intros; simplify_eq.
      * apply (sp_disconnect s x r); [done..|]. by apply truthy_spec.
      * apply (sp_disconnect_roomless s x); [done|]. right.
        destruct (decide (r = "")) as [->|N]; [done|].
        apply truthy_spec in N. congruence.
    + intros; simplify_eq. apply (sp_disconnect_roomless s x); auto.
  - destruct (timers s) as [|[r x] rest] eqn:E.
    + intros; simplify_eq. by constructor.
    + unfold on_timeout. cbn. intros; simplify_eq.
      eapply (sp_timeout s r x rest); done.
Qed.

Lemma members_set_rooms f s r : members (set_rooms f s) r = members s r.
Proof. done. Qed.

(** How an event changes a transport group. *)
Lemma step_members s ev s' out r :
  step s ev = Some (s', out) →
  members s' r =
  match ev with
  | Connect x =>
      if decide ((x ∉ sockets s) ∧ x = r) then {[x]} ∪ members s r else members s r
  | Recv x (join_room k) =>
      if decide (x ∈ sockets s ∧ k = r) then {[x]} ∪ members s r else members s r
  | Disconnect x =>
      if decide (x ∈ sockets s) then members s r ∖ {[x]} else members s r
  | _ => members s r
  end.
Proof.
  intros H. apply step_inv in H.
  inversion H; subst; clear H; unfold members; cbn;
    rewrite ?AdapterFacts.group_add, ?AdapterFacts.group_delAll;
    try match goal with m : client_msg |- _ => destruct m end;
    decs; try done; try tauto.
Qed.

Lemma step_sockets s ev s' out :
  step s ev = Some (s', out) →
  sockets s' =
  match ev with
  | Connect x => {[x]} ∪ sockets s
  | Disconnect x => sockets s ∖ {[x]}
  | _ => sockets s
  end.
Proof.
  intros H. apply step_inv in H.
  inversion H; subst; clear H; decs; cbn; try done; set_solver.
Qed.

Lemma wf_init : wf init.
Proof.
  split; unfold members; cbn; intros *; rewrite ?AdapterFacts.group_empty; set_solver.
Qed.

Lemma wf_step s ev s' out : wf s → step s ev = Some (s', out) → wf s'.
Proof.
  intros [W1 W2] H. split.
  - intros x. rewrite (step_members _ _ _ _ x H), (step_sockets _ _ _ _ H).
    destruct ev as [y|y []|y|]; decs; set_solver.
  - intros r x. rewrite (step_members _ _ _ _ r H), (step_sockets _ _ _ _ H).
    destruct ev as [y|y []|y|]; decs; set_solver.
Qed.

Lemma run_app s tr1 tr2 :
  run s (tr1 ++ tr2) =
  ('(s1, out1) ← run s tr1; '(s2, out2) ← run s1 tr2; Some (s2, out1 ++ out2)).
Proof.
  revert s. induction tr1 as [|ev tr1 IH]; intros s; cbn.
  - destruct (run s tr2) as [[??]|]; done.
  - destruct (step s ev) as [[s1 o1]|]; cbn; [|done].
    rewrite IH. destruct (run s1 tr1) as [[s2 o2]|]; cbn; [|done].
    destruct (run s2 tr2) as [[s3 o3]|]; cbn; [|done].
    by rewrite (assoc_L (++)).
Qed.

Lemma run_total s tr : is_Some (run s tr).
Proof.
  revert s. induction tr as [|ev tr IH]; intros s; cbn; [eauto|].
  destruct (step_total s ev) as [[s1 o1] ->]. cbn.
  destruct (IH s1) as [[s2 o2] ->]. cbn. eauto.
Qed.

Lemma run_invariant (P : State → Prop) :
  (∀ s ev s' out, P s → step s ev = Some (s', out) → P s') →
  ∀ tr s s' out, P s → run s tr = Some (s', out) → P s'.
Proof.
  intros HP tr. induction tr as [|ev tr IH]; intros s s' out Hs; cbn.
  - intros; by simplify_eq.
  - destruct (step s ev) as [[s1 o1]|] eqn:E; cbn; [|done].
    destruct (run s1 tr) as [[s2 o2]|] eqn:E2; cbn; [|done].
    intros; simplify_eq. eapply IH; [|done]. eauto.
Qed.

Lemma wf_reachable s : reachable s → wf s.
Proof.
  intros (tr & out & H). eapply (run_invariant wf); [apply wf_step|apply wf_init|done].
Qed.

Lemma reachable_step s ev s' out :
  reachable s → step s ev = Some (s', out) → reachable s'.
Proof.
  intros (tr & o & H) Hs. exists (tr ++ [ev]), (o ++ out)%list.
  rewrite run_app, H. cbn. rewrite Hs. cbn. by rewrite (right_id_L [] (++)).
Qed.

Lemma reachable_after tr : reachable (state_after tr).
Proof.
  unfold reachable, state_after. destruct (run_total init tr) as [[s o] H].
  rewrite H. eauto.
Qed.


Lemma step_recv s x m : x ∈ sockets s → step s (Recv x m) = dispatch x m s.
Proof. intros H. cbn. by destruct (decide _). Qed.

Lemma private_members s x :
  wf s → private s x →
  members s x = if decide (x ∈ sockets s) then {[x]} else ∅.
Proof.
  intros [W1 W2] P. unfold private in P. destruct (decide _) as [Hx|Hx].
  - specialize (W1 _ Hx). set_solver.
  - apply set_eq. intros y. split; [|set_solver]. intros Hy.
    assert (y = x) as -> by set_solver. by apply W2 in Hy.
Qed.

(** ** Replication of edits *)

(** C1, amended.  An edit [{roomId, code, delta}] received from a
    connected socket for a room the store knows sets that room's content
    to [code] (its language and output, and every other room, stay as they
    were), and emits exactly one [receive_code {code, delta}], with the
    payload as received, to the members of the room's transport group that
    are not in the transport group named by the sender's id: never to the
    sender, and never to a connection outside the room's group.  When no
    other connection has joined a room keyed by the sender's id, those are
    all the members of the room other than the sender.  Membership is not
    touched. *)
Theorem code_change_updates_store_and_forwards
    (s : State) (sid roomId code : string) (delta : option Delta) (rd : RoomData) :
  reachable s → sid ∈ sockets s →
  rooms s !! roomId = Some rd →
  ∃ s' e,
    step s (Recv sid (code_change roomId code delta)) = Some (s', [e]) ∧
    rooms s' !! roomId = Some (mkRoomData code (language rd) (output rd)) ∧
    (∀ r, r ≠ roomId → rooms s' !! r = rooms s !! r) ∧
    payload e = receive_code code delta ∧
    (∀ x, x ∈ recipients e ↔ x ∈ members s' roomId ∧ x ∉ members s' sid) ∧
    (sid ∉ recipients e) ∧
    (private s sid → ∀ x, x ∈ recipients e ↔ x ∈ members s' roomId ∧ x ≠ sid) ∧
    adapter s' = adapter s ∧ socketRoomMap s' = socketRoomMap s.
Proof.
  intros Hr Hin Hrd. pose proof (wf_reachable _ Hr) as W. pose proof W as [W1 W2].
  rewrite step_recv by done. cbn.
  rewrite on_code_change_eq, Hrd. eexists _, _. split; [done|]. cbn.
  split_and!; try done.
  - by rewrite lookup_insert_eq.
  - intros r Hr'. by rewrite lookup_insert_ne.
  - intros x. unfold members; cbn. set_solver.
  - specialize (W1 _ Hin). set_solver.
  - intros P x. rewrite (private_members _ _ W P), decide_True by done.
    unfold members; cbn. set_solver.
Qed.

Lemma code_change_updates_store_and_forwards_witness :
  ∃ s' e,
    step (state_after busy_room)
         (Recv "A" (code_change "r" "print(1)" (Some [mkChange 0 0 "print(1)"]))) =
      Some (s', [e]) ∧
    rooms s' !! "r" =
      Some (mkRoomData "print(1)" (language defaultRoom) (output defaultRoom)) ∧
    (∀ r, r ≠ "r" → rooms s' !! r = rooms (state_after busy_room) !! r) ∧
    payload e = receive_code "print(1)" (Some [mkChange 0 0 "print(1)"]) ∧
    (∀ x, x ∈ recipients e ↔ x ∈ members s' "r" ∧ x ∉ members s' "A") ∧
    ("A" ∉ recipients e) ∧
    (private (state_after busy_room) "A" →
       ∀ x, x ∈ recipients e ↔ x ∈ members s' "r" ∧ x ≠ "A") ∧
    adapter s' = adapter (state_after busy_room) ∧
    socketRoomMap s' = socketRoomMap (state_after busy_room).
Proof.
  apply (code_change_updates_store_and_forwards (state_after busy_room) "A" "r").
  - apply reachable_after.
  - vm_compute. reflexivity.
  - vm_compute. reflexivity.
Defined.

(** C1 as stated fails: "B" is a member of room "r" and is not the
    sender, but it has also joined the room keyed "A", and the edit "A"
    sends for room "r" is forwarded to nobody. *)
Lemma edit_skips_member_of_the_senders_own_room :
  "B" ∈ members (state_after eclipsed) "r" ∧
  snd <$> step (state_after eclipsed) (Recv "A" (code_change "r" "x" None)) =
  Some [Emit ∅ (receive_code "x" None)].
Proof. split; vm_compute; reflexivity. Qed.

(** C5.  An edit, a language change or an output change for a room key
    the store does not hold returns normally, leaves the whole state as it
    was and emits nothing. *)
Theorem unknown_room_is_noop
    (s : State) (sid roomId code : string) (delta : option Delta)
    (language : string) (output : list string) :
  rooms s !! roomId = None →
  step s (Recv sid (code_change roomId code delta)) = Some (s, []) ∧
  step s (Recv sid (language_change roomId language)) = Some (s, []) ∧
  step s (Recv sid (output_change roomId output)) = Some (s, []).
Proof.
  intros H. cbn. destruct (decide _); [|done].
  by rewrite on_code_change_eq, on_language_change_eq, on_output_change_eq, H.
Qed.

Lemma unknown_room_is_noop_witness :
  step (state_after busy_room) (Recv "A" (code_change "attic" "x" None)) =
    Some (state_after busy_room, []) ∧
  step (state_after busy_room) (Recv "A" (language_change "attic" "python")) =
    Some (state_after busy_room, []) ∧
  step (state_after busy_room) (Recv "A" (output_change "attic" [])) =
    Some (state_after busy_room, []).
Proof.
  apply (unknown_room_is_noop (state_after busy_room) "A" "attic").
  vm_compute. reflexivity.
Defined.

(** ** Leaving *)

(** C10.  A [leave_room] message changes nothing and emits nothing.  Of
    all events, only the disconnect of [x] takes [x] out of a transport
    group or removes its entry from [socketRoomMap]; a room leaves the
    store only when a timer runs, and timers are set only by the
    disconnect listener. *)
Theorem leave_room_is_ignored (s : State) (sid : string) :
  step s (Recv sid leave_room) = Some (s, []) ∧
  (∀ ev s' out, step s ev = Some (s', out) →
    (∀ x r, x ∈ members s r → x ∉ members s' r → ev = Disconnect x) ∧
    (∀ x r, socketRoomMap s !! x = Some r → socketRoomMap s' !! x = None →
       ev = Disconnect x) ∧
    (∀ r, is_Some (rooms s !! r) → rooms s' !! r = None →
       ev = Timeout ∧ ∃ x rest, timers s = (r, x) :: rest) ∧
    (∀ t, t ∈ timers s' → t ∉ timers s → ev = Disconnect t.2)).
Proof.
  split; [cbn; by destruct (decide _)|].
  intros ev s' out Hstep. split_and!.
  - intros x r Hx Hx'. rewrite (step_members _ _ _ _ r Hstep) in Hx'.
    destruct ev as [y|y []|y|]; decs; try done; try set_solver.
    f_equal. destruct (decide (y = x)); [done|set_solver].
  - intros x r Hx Hx'. apply step_inv in Hstep.
    inversion Hstep; subst; clear Hstep; cbn in *; try congruence.
    + destruct (decide (x0 = x)) as [->|N];
        [by rewrite lookup_insert_eq in Hx'|rewrite lookup_insert_ne in Hx' by done; congruence].
    + destruct (decide (x0 = x)) as [->|N]; [done|].
      rewrite lookup_delete_ne in Hx' by done. congruence.
    + destruct (decide _); cbn in *; congruence.
  - intros r [rd Hr] Hr'. apply step_inv in Hstep.
    inversion Hstep; subst; clear Hstep; cbn in *; try congruence.
    1-4: destruct (decide (roomId = r)) as [->|N];
      [by rewrite lookup_insert_eq in Hr'
      |rewrite lookup_insert_ne in Hr' by done; congruence].
    split; [done|]. destruct (decide _); cbn in *; [|congruence].
      destruct (decide (roomId = r)) as [->|N]; [eauto|].
      rewrite lookup_delete_ne in Hr' by done. congruence.
  - intros t Ht Ht'. apply step_inv in Hstep.
    inversion Hstep; subst; clear Hstep; cbn in *; try done.
    + apply elem_of_app in Ht as [Ht|Ht]; [done|].
      apply list_elem_of_singleton in Ht. by subst.
    + exfalso. apply Ht'.
      match goal with E : timers s = _ |- _ => rewrite E end.
      destruct (decide _); cbn in *; by apply elem_of_cons; right.
Qed.

(** ** Signalling relay *)

(** C6, amended.  An offer addressed to [target] is emitted once, as
    [{signal, callerID}], to the transport group named [target], and an
    answer likewise as [{signal, id}] with the answering socket's own id;
    the state does not change and nothing goes back to the sender.  When
    no other connection has joined a room keyed [target], that group is
    [target] alone if it is connected and empty if it is not, so the
    message reaches only the target or is dropped. *)
Theorem relay_reaches_target_group
    (s : State) (sid target callerID : string) (signal reply : Signal) :
  reachable s → sid ∈ sockets s →
  step s (Recv sid (sending_signal target callerID signal)) =
    Some (s, [Emit (members s target) (user_joined signal callerID)]) ∧
  step s (Recv sid (returning_signal reply target)) =
    Some (s, [Emit (members s target) (receiving_returned_signal reply sid)]) ∧
  (private s target →
     members s target = if decide (target ∈ sockets s) then {[target]} else ∅).
Proof.
  intros Hr Hin. rewrite !step_recv by done. split_and!; [done..|].
  apply private_members. by apply wf_reachable.
Qed.

Lemma relay_reaches_target_group_witness :
  step (state_after busy_room) (Recv "A" (sending_signal "B" "A" "offer")) =
    Some (state_after busy_room,
          [Emit (members (state_after busy_room) "B") (user_joined "offer" "A")]) ∧
  step (state_after busy_room) (Recv "A" (returning_signal "answer" "B")) =
    Some (state_after busy_room,
          [Emit (members (state_after busy_room) "B")
                (receiving_returned_signal "answer" "A")]) ∧
  (private (state_after busy_room) "B" →
     members (state_after busy_room) "B" =
     if decide ("B" ∈ sockets (state_after busy_room)) then {["B"]} else ∅).
Proof.
  apply (relay_reaches_target_group (state_after busy_room) "A" "B" "A" "offer" "answer").
  - apply reachable_after.
  - vm_compute. reflexivity.
Defined.

(** C6 as stated fails: "B" joined the room keyed "A", and the offer "C"
    addresses to connection "A" is delivered to "B" as well. *)
Lemma relay_offer_reaches_room_joiner :
  snd <$> step (state_after shadowed) (Recv "C" (sending_signal "A" "C" "offer")) =
  Some [Emit {["A"; "B"]} (user_joined "offer" "C")].
Proof. vm_compute. reflexivity. Qed.

Lemma sync_state_only_from_join s ev s' out rc st :
  step s ev = Some (s', out) → Emit rc (sync_state st) ∈ out →
  ∃ x r, ev = Recv x (join_room r).
Proof.
  intros H Hin. apply step_inv in H.
  inversion H; subst; clear H;
    repeat (apply elem_of_cons in Hin as [Hin|Hin]; simplify_eq);
    try (by apply elem_of_nil in Hin).
  eauto.
Qed.

(** ** Joining *)

(** C3, amended.  A join by a connected socket emits the member count and
    then one [sync_state] carrying the room's current content, language
    and output (the defaults when the store did not hold the room), which
    is what the store holds for the room afterwards, whoever joined
    first.  It is sent to the transport group named by the joiner's id:
    the joiner is always in it, and is alone in it when no other
    connection has joined a room keyed by that id.  No other event emits
    a [sync_state]. *)
Theorem join_sends_current_snapshot (s : State) (sid roomId : string) :
  reachable s → sid ∈ sockets s →
  ∃ s' n,
    step s (Recv sid (join_room roomId)) =
      Some (s', [Emit (members s' roomId) (user_count n);
                 Emit (members s sid)
                      (sync_state (default defaultRoom (rooms s !! roomId)))]) ∧
    rooms s' !! roomId = Some (default defaultRoom (rooms s !! roomId)) ∧
    sid ∈ members s sid ∧
    (private s sid → members s sid = {[sid]}) ∧
    (∀ s0 ev s1 out rc st,
       step s0 ev = Some (s1, out) → Emit rc (sync_state st) ∈ out →
       ∃ x r, ev = Recv x (join_room r)).
Proof.
  intros Hr Hin. pose proof (wf_reachable _ Hr) as W. pose proof W as [W1 W2].
  assert (Adapter.group (Adapter.add sid roomId (adapter s)) sid = members s sid)
    as Hself.
  { rewrite AdapterFacts.group_add. destruct (decide _) as [->|]; [|done].
    specialize (W1 _ Hin). unfold members in *. set_solver. }
  rewrite step_recv by done. cbn. rewrite on_join_room_eq. unfold members. cbn.
  rewrite Hself. eexists (mkState _ _ _ _ _), _. split_and!.
  - reflexivity.
  - cbn. by rewrite lookup_insert_eq.
  - by apply W1.
  - intros P. change (members s sid = {[sid]}).
    rewrite (private_members _ _ W P). by destruct (decide _).
  - apply sync_state_only_from_join.
Qed.

Lemma join_sends_current_snapshot_witness :
  ∃ s' n,
    step (state_after busy_room) (Recv "A" (join_room "r2")) =
      Some (s', [Emit (members s' "r2") (user_count n);
                 Emit (members (state_after busy_room) "A")
                      (sync_state
                         (default defaultRoom (rooms (state_after busy_room) !! "r2")))]) ∧
    rooms s' !! "r2" =
      Some (default defaultRoom (rooms (state_after busy_room) !! "r2")) ∧
    "A" ∈ members (state_after busy_room) "A" ∧
    (private (state_after busy_room) "A" →
       members (state_after busy_room) "A" = {["A"]}) ∧
    (∀ s0 ev s1 out rc st,
       step s0 ev = Some (s1, out) → Emit rc (sync_state st) ∈ out →
       ∃ x r, ev = Recv x (join_room r)).
Proof.
  apply (join_sends_current_snapshot (state_after busy_room) "A" "r2").
  - apply reachable_after.
  - vm_compute. reflexivity.
Defined.

(** C3 as stated fails: "B" joined the room keyed "A", and the snapshot
    of the room "A" joins is delivered to "B" as well. *)
Lemma join_snapshot_reaches_room_joiner :
  snd <$> step (state_after shadowed) (Recv "A" (join_room "r")) =
  Some [Emit {["A"]} (user_count 1); Emit {["A"; "B"]} (sync_state defaultRoom)].
Proof. vm_compute. reflexivity. Qed.

(** ** Room lifecycle *)




(** The cleanup is for the room on record, the one joined last: a room
    its one member joined before another is left in the store with no
    member and no cleanup pending. *)
Example room_joined_first_is_left_behind :
  members (state_after (two_joins ++ [Disconnect "A"; Timeout])) "a" = ∅ ∧
  timers (state_after (two_joins ++ [Disconnect "A"; Timeout])) = [] ∧
  is_Some (rooms (state_after (two_joins ++ [Disconnect "A"; Timeout])) !! "a") ∧
  rooms (state_after (two_joins ++ [Disconnect "A"; Timeout])) !! "b" = None.
Proof.
  split_and!; [vm_compute; reflexivity..| |vm_compute; reflexivity].
  vm_compute. by eexists.
Qed.

Lemma history_inv_step tr s ev s' out :
  history_inv tr s → step s ev = Some (s', out) → history_inv (tr ++ [ev]) s'.
Proof.
  intros (I1 & I2 & I3) Hstep. split_and!.
  - intros x r. rewrite (step_members _ _ _ _ r Hstep). intros Hx.
    assert (x ∈ members s r → r = x ∨ Recv x (join_room r) ∈ tr ++ [ev]) as Old.
    { intros Hm. destruct (I1 _ _ Hm); [by left|right]. apply elem_of_app; by left. }
    destruct ev as [y|y []|y|]; decs; try (by apply Old); set_solver.
  - intros x r Hx.
    assert (socketRoomMap s !! x = Some r → Recv x (join_room r) ∈ tr ++ [ev]) as Old.
    { intros Hm. apply elem_of_app; left. by apply I2. }
    apply step_inv in Hstep. inversion Hstep; subst; clear Hstep; cbn in *;
      try (by apply Old).
    + destruct (decide (x0 = x)) as [->|N].
      * rewrite lookup_insert_eq in Hx. simplify_eq.
        apply elem_of_app; right. by apply list_elem_of_singleton.
      * rewrite lookup_insert_ne in Hx by done. by apply Old.
    + destruct (decide (x0 = x)) as [->|N]; [by rewrite lookup_delete_eq in Hx|].
      rewrite lookup_delete_ne in Hx by done. by apply Old.
    + destruct (decide _); cbn in *; by apply Old.
  - intros x r. rewrite (step_members _ _ _ _ r Hstep). intros Hx Hne.
    apply step_inv in Hstep. inversion Hstep; subst; clear Hstep; cbn in *;
      try match goal with m : client_msg |- _ => destruct m end;
      decs; cbn; try (exfalso; tauto);
      try (apply (I3 x r); [set_solver|done]).
    all: match goal with
         | _ : ?a ∈ sockets _ |- is_Some (_ !! ?b) =>
             destruct (decide (a = b)) as [->|N];
             [first [by rewrite lookup_insert_eq | set_solver]
             |rewrite ?lookup_insert_ne, ?lookup_delete_ne by done;
              apply (I3 b r); [set_solver|done]]
         end.
Qed.

Lemma history_inv_run tr s out : run init tr = Some (s, out) → history_inv tr s.
Proof.
  revert s out. induction tr as [|ev tr IH] using rev_ind; intros s out.
  - cbn. intros; simplify_eq. split_and!; unfold members; cbn; intros *;
      rewrite ?AdapterFacts.group_empty, ?lookup_empty; set_solver.
  - rewrite run_app. destruct (run init tr) as [[s1 o1]|] eqn:E; cbn; [|done].
    destruct (step s1 ev) as [[s2 o2]|] eqn:E2; cbn; [|done].
    intros; simplify_eq. eapply history_inv_step; eauto.
Qed.

(** ** One room per connection *)

(** C8, amended.  After any history in which connection [sid] has asked
    for one room key only, [sid] is in at most one transport group besides
    the one named by its own id, and that group is the room
    [socketRoomMap] records for it.  A join itself takes no connection out
    of any group. *)
Theorem one_room_per_connection_that_joins_once
    (tr : list event) (s : State) (out : list emission) (sid r1 r2 : string) :
  run init tr = Some (s, out) →
  joins_one_room tr sid →
  sid ∈ members s r1 → sid ∈ members s r2 → r1 ≠ sid → r2 ≠ sid →
  (r1 = r2 ∧ socketRoomMap s !! sid = Some r1) ∧
  (∀ x k s' o y r,
     step s (Recv x (join_room k)) = Some (s', o) →
     y ∈ members s r → y ∈ members s' r).
Proof.
  intros Hrun Hone H1 H2 N1 N2.
  destruct (history_inv_run _ _ _ Hrun) as (I1 & I2 & I3).
  destruct (I1 _ _ H1) as [|J1]; [done|]. destruct (I1 _ _ H2) as [|J2]; [done|].
  split_and!.
  - by apply Hone.
  - destruct (I3 _ _ H1 N1) as [r Hr]. rewrite Hr. f_equal.
    apply Hone; [by apply I2|done].
  - intros x k s' o y r Hstep Hy. rewrite (step_members _ _ _ _ r Hstep).
    destruct (decide _); set_solver.
Qed.

Lemma one_room_per_connection_that_joins_once_witness :
  ("r" = "r" ∧ socketRoomMap (state_after busy_room) !! "A" = Some "r") ∧
  (∀ x k s' o y r,
     step (state_after busy_room) (Recv x (join_room k)) = Some (s', o) →
     y ∈ members (state_after busy_room) r → y ∈ members s' r).
Proof.
  apply (one_room_per_connection_that_joins_once
           busy_room (state_after busy_room) (log_after busy_room) "A" "r" "r").
  - vm_compute. reflexivity.
  - intros ra rb Ha Hb. unfold busy_room in Ha, Hb.
    repeat (apply elem_of_cons in Ha as [Ha|Ha]; [try discriminate Ha|]);
      [|by apply elem_of_nil in Ha].
    repeat (apply elem_of_cons in Hb as [Hb|Hb]; [try discriminate Hb|]);
      [|by apply elem_of_nil in Hb].
    congruence.
  - vm_compute. reflexivity.
  - vm_compute. reflexivity.
  - discriminate.
  - discriminate.
Defined.

(** C8 as stated fails: the join listener takes the connection out of
    nothing, so after a second join it is a member of both rooms. *)
Lemma second_join_keeps_first_room :
  members (state_after two_joins) "a" = {["A"]} ∧
  members (state_after two_joins) "b" = {["A"]} ∧
  socketRoomMap (state_after two_joins) !! "A" = Some "b".
Proof. split_and!; vm_compute; reflexivity. Qed.

(** ** The signalling scenario of the specification *)

(** "A" and "B" are in room "r": "A" asks for its peers and is told "B";
    its offer reaches "B" tagged "A", and the answer of "B" reaches "A"
    tagged "B".  When "B" then disconnects, "A" is told the new count and
    which peer left. *)
Example handshake_through_the_relay :
  snd <$> step (state_after busy_room) (Recv "A" (request_users "r")) =
    Some [Emit {["A"]} (all_users ["B"])] ∧
  snd <$> step (state_after busy_room) (Recv "A" (sending_signal "B" "A" "offer")) =
    Some [Emit {["B"]} (user_joined "offer" "A")] ∧
  snd <$> step (state_after busy_room) (Recv "B" (returning_signal "answer" "A")) =
    Some [Emit {["A"]} (receiving_returned_signal "answer" "B")] ∧
  log_after [Connect "A"; Connect "B"; Recv "A" (join_room "r");
             Recv "B" (join_room "r"); Disconnect "B"; Timeout] =
    (log_after busy_room ++ [Emit {["A"]} (user_count 1); Emit {["A"]} (user_left "B")])%list.
Proof. split_and!; vm_compute; reflexivity. Qed.

(** ** Counts at rest *)

Lemma last_count_app o1 o2 x :
  last_count (o1 ++ o2)%list x =
  match last_count o2 x with Some n => Some n | None => last_count o1 x end.
Proof.
  induction o1 as [|e o1 IH]; cbn.
  - by destruct (last_count o2 x).
  - rewrite IH. by destruct (last_count o2 x).
Qed.

Lemma disciplined_prefix tr ev : disciplined (tr ++ [ev])%list → disciplined tr.
Proof.
  intros [D1 D2]. split.
  - intros x ra rb Ha Hb. apply (D1 x); apply elem_of_app; by left.
  - intros x r Hr. destruct (D2 x r) as [? Hc]; [apply elem_of_app; by left|].
    split; [done|]. intros Hin. apply Hc. apply elem_of_app; by left.
Qed.

Lemma last_count_snoc_count out rc n e2 x :
  match payload e2 with user_count _ => False | _ => True end →
  last_count (out ++ [Emit rc (user_count n); e2])%list x =
  if decide (x ∈ rc) then Some n else last_count out x.
Proof.
  intros He. rewrite last_count_app. cbn.
  destruct (payload e2); try done; by destruct (decide _).
Qed.

Lemma last_count_snoc_other out e x :
  match payload e with user_count _ => False | _ => True end →
  last_count (out ++ [e])%list x = last_count out x.
Proof. intros He. rewrite last_count_app. cbn. by destruct (payload e). Qed.

Lemma key_is_no_connection tr k x z :
  disciplined tr → Recv z (join_room k) ∈ tr → Connect x ∈ tr → k ≠ x.
Proof. intros [_ D2] Hz Hx ->. by destruct (D2 _ _ Hz). Qed.

Lemma member_joined tr s x r :
  history_inv tr s → x ∈ members s r → r ≠ x → Recv x (join_room r) ∈ tr.
Proof. intros (I1 & _) Hx Hne. by destruct (I1 _ _ Hx). Qed.

Lemma two_rooms_same tr s x r k :
  disciplined tr → history_inv tr s →
  x ∈ members s r → x ∈ members s k → r ≠ x → k ≠ x → r = k.
Proof.
  intros [D1 _] I Hr Hk Nr Nk. apply (D1 x); by eapply member_joined.
Qed.

Lemma settled_inv_step tr s out ev s' o :
  disciplined (tr ++ [ev])%list → history_inv tr s → wf s → settled_inv tr s out →
  step s ev = Some (s', o) → settled_inv (tr ++ [ev])%list s' (out ++ o)%list.
Proof.
  intros D I W (QA & QB & QC) Hstep.
  pose proof (disciplined_prefix _ _ D) as D0.
  pose proof (history_inv_step _ _ _ _ _ I Hstep) as I'.
  pose proof (wf_step _ _ _ _ W Hstep) as W'.
  pose proof I as (I1 & I2 & I3). pose proof W as [W1 W2].
  assert (∀ x, x ∈ sockets s → Connect x ∈ (tr ++ [ev])%list) as QA0.
  { intros x Hx. apply elem_of_app; left. by apply QA. }
  assert (∀ x r, x ∈ members s r → r ≠ x → Recv x (join_room r) ∈ (tr ++ [ev])%list)
    as J0.
  { intros x r Hx Hne. apply elem_of_app; left. by eapply member_joined. }
  pose proof (step_inv _ _ _ _ Hstep) as Hsp.
  split_and!.
  - intros x. rewrite (step_sockets _ _ _ _ Hstep).
    destruct ev as [y|y m|y|]; try (by apply QA0).
    + intros [->%elem_of_singleton|Hx]%elem_of_union; [|by apply QA0].
      apply elem_of_app; right. by apply list_elem_of_singleton.
    + intros Hx. apply QA0. set_solver.
  - intros r y Ht.
    assert ((r, y) ∈ timers s → ∃ x, Recv x (join_room r) ∈ (tr ++ [ev])%list) as Old.
    { intros Hin. destruct (QB _ _ Hin) as [x Hx]. exists x. apply elem_of_app; by left. }
    inversion Hsp; subst; clear Hsp; cbn in *; try (by apply Old).
    + apply elem_of_app in Ht as [Ht|Ht]; [by apply Old|].
      apply list_elem_of_singleton in Ht. simplify_eq.
      eexists. apply elem_of_app; left. by apply I2.
    + apply Old. destruct (decide _); cbn in Ht;
        match goal with E : timers s = _ |- _ => rewrite E end;
        apply elem_of_cons; by right.
  - intros r. specialize (QC r).
    inversion Hsp; subst; clear Hsp; cbn [timers members adapter] in *;
      rewrite ?app_nil_r; try done.
    + (* a socket connects *)
      destruct QC as [QC|QC]; [left|by right].
      intros y. unfold members; cbn. rewrite AdapterFacts.group_add.
      destruct (decide (x = r)) as [->|N]; [|by apply QC].
      intros Hy Hne. exfalso.
      assert (y ∈ members s r) as Hy' by set_solver.
      assert (r ≠ r) as Habs; [|done].
      eapply (key_is_no_connection _ r r y D); [by apply J0|].
      apply elem_of_app; right. by apply list_elem_of_singleton.
    + (* join *)
      set (s' := mkState _ _ _ _ _) in *.
      assert (∀ k, members s' k =
                   if decide (roomId = k) then {[x]} ∪ members s k else members s k)
        as Hm by (intros k; apply AdapterFacts.group_add).
      destruct (decide (roomId = r)) as [->|N].
      * left. intros y Hy Hne. rewrite last_count_snoc_count by done.
        by destruct (decide (y ∈ members s' r)).
      * destruct QC as [QC|QC]; [left|by right].
        intros y. rewrite (Hm r). destruct (decide _); [done|].
        intros Hy Hne. rewrite last_count_snoc_count by done.
        destruct (decide (y ∈ members s' roomId)) as [Hin|]; [|by apply QC].
        exfalso. apply N. symmetry.
        eapply (two_rooms_same _ s' y r roomId D I'); try done.
        -- rewrite (Hm r). by destruct (decide _).
        -- eapply (key_is_no_connection _ roomId y x D).
           ++ apply elem_of_app; right. by apply list_elem_of_singleton.
           ++ apply QA0. by eapply W2.
    + (* request_users *)
      destruct QC as [QC|QC]; [left|by right].
      intros y Hy Hne. rewrite last_count_snoc_other by done. by apply QC.
    + destruct QC as [QC|QC]; [left|by right].
      intros y Hy Hne. rewrite last_count_snoc_other by done. by apply QC.
    + destruct QC as [QC|QC]; [left|by right].
      intros y Hy Hne. rewrite last_count_snoc_other by done. by apply QC.
    + destruct QC as [QC|QC]; [left|by right].
      intros y Hy Hne. rewrite last_count_snoc_other by done. by apply QC.
    + destruct QC as [QC|QC]; [left|by right].
      intros y Hy Hne. rewrite last_count_snoc_other by done. by apply QC.
    + destruct QC as [QC|QC]; [left|by right].
      intros y Hy Hne. rewrite last_count_snoc_other by done. by apply QC.
    + (* disconnect, a room recorded *)
      destruct (decide (roomId = r)) as [->|N].
      { right. exists x. apply elem_of_app; right. by apply list_elem_of_singleton. }
      destruct QC as [QC|[y QC]]; [left|right; exists y; apply elem_of_app; by left].
      intros y. unfold members; cbn. rewrite AdapterFacts.group_delAll.
      fold (members s r). intros Hy Hne.
      assert (y ∈ members s r) as Hy' by set_solver.
      assert (x ∉ members s r) as Hx.
      { intros Hx. assert (r ≠ x) as Nx.
        { eapply (key_is_no_connection _ r x y D); [by apply J0|by apply QA0]. }
        apply N. destruct D0 as [D1 _]. apply (D1 x); [by apply I2|].
        by eapply member_joined. }
      replace (members s r ∖ {[x]}) with (members s r) by set_solver.
      by apply QC.
    + (* disconnect, no room recorded *)
      destruct QC as [QC|QC]; [left|by right].
      intros y. unfold members; cbn. rewrite AdapterFacts.group_delAll.
      fold (members s r). intros Hy Hne.
      assert (y ∈ members s r) as Hy' by set_solver.
      assert (x ∉ members s r) as Hx.
      { intros Hx. assert (r ≠ x) as Nx.
        { eapply (key_is_no_connection _ r x y D); [by apply J0|by apply QA0]. }
        destruct (I3 _ _ Hx Nx) as [k Hk].
        match goal with H : _ ∨ _ |- _ => rename H into Hmap end.
        destruct Hmap as [E|E]; [congruence|].
        rewrite E in Hk. simplify_eq. destruct D0 as [_ D2].
        by destruct (D2 _ _ (I2 _ _ E)). }
      replace (members s r ∖ {[x]}) with (members s r) by set_solver.
      by apply QC.
    + (* the cleanup *)
      assert (∀ k, members (if decide (size (members s roomId) = 0)
                             then set_rooms (delete roomId) (set_timers (λ _, rest) s)
                             else set_timers (λ _, rest) s) k = members s k) as Hm
        by (intros; by destruct (decide _)).
      assert (timers (if decide (size (members s roomId) = 0)
                      then set_rooms (delete roomId) (set_timers (λ _, rest) s)
                      else set_timers (λ _, rest) s) = rest) as Ht
        by (by destruct (decide _)).
      rewrite Ht. setoid_rewrite Hm.
      match goal with E : timers s = _ |- _ => rename E into Et end.
      destruct (decide (roomId = r)) as [->|N].
      * left. intros y Hy Hne. rewrite last_count_snoc_count by done.
        by destruct (decide (y ∈ members s r)).
      * destruct QC as [QC|[y QC]].
        -- left. intros y Hy Hne. rewrite last_count_snoc_count by done.
           destruct (decide (y ∈ members s roomId)) as [Hin|]; [|by apply QC].
           exfalso. apply N. symmetry.
           eapply (two_rooms_same _ s y r roomId D0 I); try done.
           destruct (QB roomId x) as [z Hz]; [rewrite Et; apply elem_of_cons; by left|].
           eapply (key_is_no_connection _ roomId y z D0); [done|].
           apply QA. by eapply W2.
        -- right. exists y. rewrite Et in QC.
           apply elem_of_cons in QC as [QC|QC]; [by simplify_eq|done].
Qed.

(** Under the discipline a connection is in one joined room at most. *)
Lemma joined_room_unique tr s x r r' :
  disciplined tr → history_inv tr s → wf s →
  (∀ y, y ∈ sockets s → Connect y ∈ tr) →
  (∃ y, Recv y (join_room r) ∈ tr) → (∃ y, Recv y (join_room r') ∈ tr) →
  x ∈ members s r → x ∈ members s r' → r = r'.
Proof.
  intros [D1 D2] (I1 & I2 & I3) [W1 W2] QA [y Hy] [y' Hy'] Hx Hx'.
  assert (Connect x ∈ tr) as Hc by (apply QA; by eapply W2).
  destruct (I1 _ _ Hx) as [->|J]; [by destruct (D2 _ _ Hy)|].
  destruct (I1 _ _ Hx') as [->|J']; [by destruct (D2 _ _ Hy')|].
  by apply (D1 x).
Qed.

Lemma settled_inv_run tr s out :
  run init tr = Some (s, out) → disciplined tr → settled_inv tr s out.
Proof.
  revert s out. induction tr as [|ev tr IH] using rev_ind; intros s out.
  - cbn. intros ? _; simplify_eq. split_and!; cbn.
    + set_solver.
    + intros r y Hin. by apply elem_of_nil in Hin.
    + intros r. left. intros x. unfold members; cbn.
      rewrite AdapterFacts.group_empty. set_solver.
  - rewrite run_app. destruct (run init tr) as [[s1 o1]|] eqn:E; cbn; [|done].
    destruct (step s1 ev) as [[s2 o2]|] eqn:E2; cbn; [|done].
    intros ? D; simplify_eq. rewrite app_nil_r.
    eapply settled_inv_step; eauto.
    + by eapply history_inv_run.
    + apply wf_reachable. by exists tr, o1.
    + eapply IH; [done|]. by eapply disciplined_prefix.
Qed.

(** ** Member counts *)

(** C2, amended.  After any sequence of events, whatever comes next is
    handled without a throw, and every [user_count] it emits carries the
    size of the transport group of some room as it is then, and is sent to
    exactly that group: no counter is kept beside the groups.  A join
    reports the group that now contains the joiner.  A disconnect takes the
    socket out of every group at once and reports nothing; for a connection
    with a room on record under a non-empty key it schedules the cleanup of
    that room, the one the connection joined last, and the cleanup reports
    the size that room's group has when it runs.  So the rooms a connection
    joined earlier are never told that it left, and the count their members
    were told last can differ from the size of the group.  When every
    connection asks for one room key only, and room keys are neither empty
    nor a connection id, it cannot: whenever no cleanup is pending, the
    count each member of a room was told last is the size of the room's
    group. *)
Theorem reported_count_is_group_size (tr : list event) (ev : event) :
  ∃ s o s' out,
    run init tr = Some (s, o) ∧ step s ev = Some (s', out) ∧
    (∀ rc n, Emit rc (user_count n) ∈ out →
       ∃ roomId, rc = members s' roomId ∧ n = size (members s' roomId)) ∧
    (∀ x roomId, ev = Recv x (join_room roomId) → x ∈ sockets s →
       x ∈ members s' roomId ∧
       Emit (members s' roomId) (user_count (size (members s' roomId))) ∈ out) ∧
    (∀ x, ev = Disconnect x → out = [] ∧ ∀ r, x ∉ members s' r) ∧
    (∀ x roomId, ev = Disconnect x → x ∈ sockets s →
       socketRoomMap s !! x = Some roomId → roomId ≠ "" →
       timers s' = (timers s ++ [(roomId, x)])%list) ∧
    (∀ roomId x rest, ev = Timeout → timers s = (roomId, x) :: rest →
       timers s' = rest ∧
       Emit (members s' roomId) (user_count (size (members s' roomId))) ∈ out) ∧
    (disciplined (tr ++ [ev]) → timers s' = [] →
     ∀ x r, x ∈ members s' r → r ≠ x →
       last_count (o ++ out) x = Some (size (members s' r))).
Proof.
  destruct (run_total init tr) as [[s o] Hrun].
  destruct (step_total s ev) as [[s' out] Hstep].
  exists s, o, s', out. split; [done|]. split; [done|].
  assert (wf s) as [W1 W2] by (apply wf_reachable; by exists tr, o).
  pose proof (step_inv _ _ _ _ Hstep) as Hsp.
  split_and!.
  - intros rc n Hin. inversion Hsp; subst; clear Hsp;
      repeat (apply elem_of_cons in Hin as [Hin|Hin]; simplify_eq);
      try (by apply elem_of_nil in Hin).
    + by exists roomId.
    + exists roomId. by destruct (decide _).
  - intros x roomId -> Hx. inversion Hsp; subst; clear Hsp; [done|].
    split; [|apply elem_of_cons; by left].
    unfold members; cbn. rewrite AdapterFacts.group_add. destruct (decide _); set_solver.
  - intros x ->. split; [by inversion Hsp|].
    intros r. rewrite (step_members _ _ _ _ r Hstep).
    destruct (decide _); [set_solver|]. intros Hx. by apply W2 in Hx.
  - intros x roomId -> Hx Hm Hne. inversion Hsp; subst; clear Hsp; [done| |].
    + cbn. congruence.
    + naive_solver.
  - intros roomId x rest -> Ht. inversion Hsp; subst; clear Hsp; [congruence|].
    rewrite Ht in *. simplify_eq. split; [by destruct (decide _)|].
    apply elem_of_cons; left. by destruct (decide _).
  - intros D Ht x r Hx Hne.
    assert (run init (tr ++ [ev]) = Some (s', (o ++ out)%list)) as Hrun'.
    { rewrite run_app, Hrun. cbn. rewrite Hstep. cbn. by rewrite app_nil_r. }
    destruct (settled_inv_run _ _ _ Hrun' D) as (_ & _ & QC).
    destruct (QC r) as [Q|[y Q]]; [by apply Q|].
    rewrite Ht in Q. by apply elem_of_nil in Q.
Qed.

(** C2 as stated fails: "A" and "B" are in room "a", "A" joins room "b"
    as well and disconnects.  Its cleanup is for room "b" alone; once it
    has run and nothing is pending, "B" is the one member of room "a" and
    the count it was told last is 2. *)
Lemma count_drifts_after_a_second_join :
  last_count (log_after adrift) "B" = Some 2 ∧
  "B" ∈ members (state_after adrift) "a" ∧
  size (members (state_after adrift) "a") = 1 ∧
  timers (state_after adrift) = [].
Proof. split_and!; vm_compute; reflexivity. Qed.

(** Where every connection keeps to one room, the count follows: "B"
    leaves room "r", and after the cleanup "A" has been told 1. *)
Example count_after_a_leave :
  last_count (log_after one_left) "A" = Some 1 ∧
  size (members (state_after one_left) "r") = 1.
Proof. split; vm_compute; reflexivity. Qed.

(** X1.  Along a disciplined history, whenever no cleanup is pending, the
    count each member of a room was sent last is the size of the room's
    transport group: what the clients show has not drifted. *)
Theorem counts_settle
    (tr : list event) (s : State) (out : list emission) (x r : string) :
  run init tr = Some (s, out) → disciplined tr → timers s = [] →
  x ∈ members s r → r ≠ x →
  last_count out x = Some (size (members s r)).
Proof.
  intros Hrun D Ht Hx Hne.
  destruct (settled_inv_run _ _ _ Hrun D) as (_ & _ & QC).
  destruct (QC r) as [Q|[y Q]]; [by apply Q|].
  rewrite Ht in Q. by apply elem_of_nil in Q.
Qed.

Lemma counts_settle_witness :
  last_count (log_after one_left) "A" = Some (size (members (state_after one_left) "r")).
Proof.
  apply (counts_settle one_left (state_after one_left) (log_after one_left) "A" "r").
  - vm_compute. reflexivity.
  - split.
    + intros x ra rb Ha Hb. unfold one_left in Ha, Hb.
      repeat (apply elem_of_cons in Ha as [Ha|Ha]; [try discriminate Ha|]);
        try (by apply elem_of_nil in Ha);
      repeat (apply elem_of_cons in Hb as [Hb|Hb]; [try discriminate Hb|]);
        try (by apply elem_of_nil in Hb); congruence.
    + intros x r Hr. unfold one_left in Hr.
      repeat (apply elem_of_cons in Hr as [Hr|Hr]; [try discriminate Hr|]);
        try (by apply elem_of_nil in Hr).
      all: injection Hr as -> ->; split; [discriminate|].
      all: intros Hc; unfold one_left in Hc;
        repeat (apply elem_of_cons in Hc as [Hc|Hc]; [try discriminate Hc|]);
        by apply elem_of_nil in Hc.
  - vm_compute. reflexivity.
  - vm_compute. reflexivity.
  - discriminate.
Defined.

End ServerFacts.

Module ClientFacts.
Import Wire Client.

Section Listeners.
Context {E : Editor}.

(** Under the flag the change listener does nothing. *)
Lemma listener_suppressed d c :
  isRemoteUpdate c = true → onDidChangeModelContent d c = c.
Proof. unfold onDidChangeModelContent. by intros ->. Qed.

Lemma setValue_suppressed v old c :
  isRemoteUpdate c = true → editorRef c = Some old →
  editor_setValue v c = set_editorRef (Some (held v)) c.
Proof.
  intros Hf He. unfold editor_setValue. rewrite He.
  by apply listener_suppressed.
Qed.

Lemma executeEdits_suppressed d old c :
  isRemoteUpdate c = true → editorRef c = Some old →
  editor_executeEdits d c =
  (λ new, set_editorRef (Some new) c) <$> executeEdits d old.
Proof.
  intros Hf He. unfold editor_executeEdits. rewrite He.
  destruct (executeEdits d old); cbn; [|done]. f_equal.
  by apply listener_suppressed.
Qed.

(** What a mounted page is left with by a forwarded edit that has a
    delta, when the editor accepts the delta and when it throws. *)
Lemma receive_code_delta code d v new c :
  editorRef c = Some v → executeEdits d v = Some new →
  on_receive_code code (Some d) c =
  mkClient (roomId c) (joined c) (language c) new (output c) (userCount c) false
           (Some new) (pending c) (emitted c).
Proof.
  intros He Hx. unfold on_receive_code. rewrite He.
  rewrite (executeEdits_suppressed d v) by done. cbn. by rewrite Hx.
Qed.

Lemma receive_code_thrown code d v c :
  editorRef c = Some v → executeEdits d v = None →
  on_receive_code code (Some d) c = set_isRemoteUpdate true c.
Proof.
  intros He Hx. unfold on_receive_code. rewrite He.
  rewrite (executeEdits_suppressed d v) by done. cbn. by rewrite Hx.
Qed.

(** What it is left with by a forwarded edit that has none. *)
Lemma receive_code_full code v c :
  editorRef c = Some v →
  on_receive_code code None c =
  mkClient (roomId c) (joined c) (language c) code (output c) (userCount c) true
           (Some (held code)) (pending c ++ [50])%list (emitted c).
Proof.
  intros He. unfold on_receive_code. rewrite He.
  by rewrite (setValue_suppressed code v).
Qed.

(** What a snapshot leaves a page with, mounted or not. *)
Lemma sync_state_eq st c :
  on_sync_state st c =
  mkClient (roomId c) (joined c) (Wire.language st) (Wire.code st) (Wire.output st)
           (userCount c) true ((λ _, held (Wire.code st)) <$> editorRef c)
           (pending c ++ [100])%list (emitted c).
Proof.
  unfold on_sync_state. cbn. destruct (editorRef c) as [old|] eqn:He.
  - by rewrite (setValue_suppressed (Wire.code st) old).
  - cbn. unfold setTimeout_reset, set_pending. cbn. by rewrite He.
Qed.

Lemma fire_last c ms :
  isRemoteUpdate (fire_timeout (List.length (pending c))
                               (set_pending (pending c ++ [ms])%list c)) = false.
Proof.
  unfold fire_timeout. cbn. by rewrite lookup_app_r, Nat.sub_diag by done.
Qed.

(** ** Echo suppression *)

(** X20.  What the listeners do with the flag, the editor being mounted.
    On a forwarded edit that has a delta the flag is set and the delta is
    handed to [executeEdits].  If the editor accepts it, the buffer and
    the [code] state hold the editor's result and the flag is cleared
    before the listener returns; no timer is set and nothing is emitted.
    If the call throws, the listener ends with the flag set: nothing else
    of the page has changed, no timer will clear the flag, and whatever
    the user types next is not sent.  On a forwarded edit without a
    delta, and on a snapshot, the flag is set, the buffer replaced by what
    the editor holds for the text received and nothing emitted, but the
    flag is still set when the listener returns and is cleared by the
    timer callback the listener scheduled (50 ms and 100 ms). *)
Theorem remote_apply_flag_scope
    (c : Client) (v code : string) (d : Delta) (st : RoomData) :
  editorRef c = Some v →
  (∀ new, executeEdits d v = Some new →
     isRemoteUpdate (on_receive_code code (Some d) c) = false ∧
     pending (on_receive_code code (Some d) c) = pending c ∧
     emitted (on_receive_code code (Some d) c) = emitted c ∧
     editorRef (on_receive_code code (Some d) c) = Some new ∧
     Client.code (on_receive_code code (Some d) c) = new) ∧
  (executeEdits d v = None →
     on_receive_code code (Some d) c = set_isRemoteUpdate true c ∧
     ∀ d', emitted (user_types d' (on_receive_code code (Some d) c)) = emitted c) ∧
  (isRemoteUpdate (on_receive_code code None c) = true ∧
   pending (on_receive_code code None c) = (pending c ++ [50])%list ∧
   emitted (on_receive_code code None c) = emitted c ∧
   editorRef (on_receive_code code None c) = Some (held code) ∧
   isRemoteUpdate (fire_timeout (List.length (pending c)) (on_receive_code code None c))
     = false) ∧
  (isRemoteUpdate (on_sync_state st c) = true ∧
   pending (on_sync_state st c) = (pending c ++ [100])%list ∧
   emitted (on_sync_state st c) = emitted c ∧
   editorRef (on_sync_state st c) = Some (held (Wire.code st)) ∧
   isRemoteUpdate (fire_timeout (List.length (pending c)) (on_sync_state st c)) = false).
Proof.
  intros He. split_and!.
  - intros new Hx. by rewrite (receive_code_delta _ _ v new).
  - intros Hx. rewrite (receive_code_thrown _ _ v) by done. split; [done|].
    intros d'. unfold user_types. cbn [editorRef set_isRemoteUpdate]. rewrite He.
    by rewrite listener_suppressed.
  - by rewrite (receive_code_full _ v).
  - by rewrite (receive_code_full _ v).
  - by rewrite (receive_code_full _ v).
  - by rewrite (receive_code_full _ v).
  - rewrite (receive_code_full _ v) by done. unfold fire_timeout. cbn.
    by rewrite lookup_app_r, Nat.sub_diag by done.
  - by rewrite sync_state_eq.
  - by rewrite sync_state_eq.
  - by rewrite sync_state_eq.
  - rewrite sync_state_eq. cbn. by rewrite He.
  - rewrite sync_state_eq. unfold fire_timeout. cbn.
    by rewrite lookup_app_r, Nat.sub_diag by done.
Qed.

(** X21.  The listeners for server messages send nothing back: whatever
    message a page hears and whatever state it is in (editor mounted or
    not, flag set or clear), handling the message emits nothing, so a
    forwarded edit is never echoed to the server. *)
Lemma on_message_emits_nothing m c : emitted (on_message m c) = emitted c.
Proof.
  destruct m; cbn [on_message]; try done.
  - by rewrite sync_state_eq.
  - destruct (editorRef c) as [v|] eqn:He;
      [|unfold on_receive_code; by rewrite He].
    destruct delta as [d|].
    + destruct (executeEdits d v) as [new|] eqn:Hx.
      * by rewrite (receive_code_delta _ _ v new).
      * by rewrite (receive_code_thrown _ _ v).
    + by rewrite (receive_code_full _ v).
Qed.

End Listeners.

(** C7.  The delta branch of the [receive_code] listener clears the flag
    right after the apply call; the branch without a delta and the
    [sync_state] listener do not: each returns with the flag set and a
    timer pending.  An edit the user types then is applied to the buffer
    but not sent, whereas the same edit typed with the flag clear is
    sent. *)
Theorem full_replacement_leaves_flag_set :
  isRemoteUpdate (on_receive_code "x = 1" None mounted) = true ∧
  pending (on_receive_code "x = 1" None mounted) = [50] ∧
  isRemoteUpdate (on_sync_state Server.defaultRoom mounted) = true ∧
  pending (on_sync_state Server.defaultRoom mounted) = [100] ∧
  emitted (user_types [mkChange 0 0 "y"] mounted) =
    (emitted mounted ++
      [code_change "r" ("y" ++ template_javascript) (Some [mkChange 0 0 "y"])])%list ∧
  emitted (user_types [mkChange 0 0 "y"] (on_receive_code "x = 1" None mounted)) =
    emitted mounted ∧
  editorRef (user_types [mkChange 0 0 "y"] (on_receive_code "x = 1" None mounted)) =
    Some "yx = 1" ∧
  isRemoteUpdate (on_receive_code "x = 1" (Some [mkChange 0 0 "y"]) mounted) = false ∧
  pending (on_receive_code "x = 1" (Some [mkChange 0 0 "y"]) mounted) = [].
Proof. split_and!; vm_compute; reflexivity. Qed.

Lemma remote_apply_flag_scope_witness :
  (∀ new, executeEdits [mkChange 0 0 "y"] template_javascript = Some new →
     isRemoteUpdate (on_receive_code "x" (Some [mkChange 0 0 "y"]) mounted) = false ∧
     pending (on_receive_code "x" (Some [mkChange 0 0 "y"]) mounted) = pending mounted ∧
     emitted (on_receive_code "x" (Some [mkChange 0 0 "y"]) mounted) = emitted mounted ∧
     editorRef (on_receive_code "x" (Some [mkChange 0 0 "y"]) mounted) = Some new ∧
     Client.code (on_receive_code "x" (Some [mkChange 0 0 "y"]) mounted) = new) ∧
  (executeEdits [mkChange 0 0 "y"] template_javascript = None →
     on_receive_code "x" (Some [mkChange 0 0 "y"]) mounted =
       set_isRemoteUpdate true mounted ∧
     ∀ d', emitted (user_types d' (on_receive_code "x" (Some [mkChange 0 0 "y"]) mounted))
           = emitted mounted) ∧
  (isRemoteUpdate (on_receive_code "x" None mounted) = true ∧
   pending (on_receive_code "x" None mounted) = (pending mounted ++ [50])%list ∧
   emitted (on_receive_code "x" None mounted) = emitted mounted ∧
   editorRef (on_receive_code "x" None mounted) = Some (held "x") ∧
   isRemoteUpdate (fire_timeout (List.length (pending mounted))
                                (on_receive_code "x" None mounted)) = false) ∧
  (isRemoteUpdate (on_sync_state Server.defaultRoom mounted) = true ∧
   pending (on_sync_state Server.defaultRoom mounted) = (pending mounted ++ [100])%list ∧
   emitted (on_sync_state Server.defaultRoom mounted) = emitted mounted ∧
   editorRef (on_sync_state Server.defaultRoom mounted) =
     Some (held (Wire.code Server.defaultRoom)) ∧
   isRemoteUpdate (fire_timeout (List.length (pending mounted))
                                (on_sync_state Server.defaultRoom mounted)) = false).
Proof.
  apply (remote_apply_flag_scope mounted template_javascript "x" [mkChange 0 0 "y"]
                                 Server.defaultRoom).
  vm_compute. reflexivity.
Defined.

End ClientFacts.

Module SystemFacts.
Import Wire System.
#[local] Set Warnings "-clear-no-such-hyp".

(** ** Clearing the output *)

Section Clearing.
Context {E : Client.Editor}.

Lemma deliver1_lookup cs e y :
  deliver1 cs e !! y =
  (λ c, if decide (y ∈ recipients e) then Client.on_message (payload e) c else c)
    <$> cs !! y.
Proof.
  unfold deliver1. rewrite map_lookup_imap. by destruct (cs !! y).
Qed.

(** One press of the emitting Clear button, written out. *)
Lemma act_clear_click sys sid c rd :
  clients sys !! sid = Some c →
  sid ∈ Server.sockets (server sys) →
  Server.rooms (server sys) !! Client.roomId c = Some rd →
  act sid Client.clear_click sys =
  Some (mkSystem
          (Server.set_rooms
             (<[Client.roomId c := mkRoomData (code rd) (language rd) []]>) (server sys))
          (deliver1 (<[sid := Client.setOutput [] (Client.set_emitted [] c)]> (clients sys))
             (Emit (Server.members (server sys) (Client.roomId c) ∖
                      Server.members (server sys) sid)
                   (receive_output [])))).
Proof.
  intros Hc Hs Hr. unfold act. rewrite Hc. cbn.
  unfold send. cbn. destruct (decide _); [|done]. cbn.
  rewrite ServerFacts.on_output_change_eq, Hr. cbn. done.
Qed.

(** X22.  With the Clear button that emits [output_change], for a page
    whose room the store holds and whose connection is alone in the
    transport group named by its id: one press empties the output of the
    page, of the room in the store and of every other member's page, and a
    second press changes nothing. *)
Theorem clear_click_idempotent
    (sys : System) (sid : string) (c : Client.Client) (rd : RoomData) :
  clients sys !! sid = Some c →
  sid ∈ Server.sockets (server sys) →
  Server.members (server sys) sid = {[sid]} →
  Server.rooms (server sys) !! Client.roomId c = Some rd →
  ∃ sys1,
    act sid Client.clear_click sys = Some sys1 ∧
    act sid Client.clear_click sys1 = Some sys1 ∧
    Client.output <$> clients sys1 !! sid = Some [] ∧
    output <$> Server.rooms (server sys1) !! Client.roomId c = Some [] ∧
    (∀ y cy, y ∈ Server.members (server sys) (Client.roomId c) →
       clients sys !! y = Some cy →
       Client.output <$> clients sys1 !! y = Some []).
Proof.
  intros Hc Hs Hown Hr. eexists. split; [by eapply act_clear_click|].
  rewrite Hown.
  set (e := Emit (Server.members (server sys) (Client.roomId c) ∖ {[sid]})
                 (receive_output [])).
  set (c1 := Client.setOutput [] (Client.set_emitted [] c)).
  assert (deliver1 (<[sid := c1]> (clients sys)) e !! sid = Some c1) as Hsid.
  { rewrite deliver1_lookup, lookup_insert_eq. cbn.
    destruct (decide _) as [Hin|]; [|done]. set_solver. }
  split_and!.
  - erewrite act_clear_click; cbn; [| exact Hsid | done | by rewrite lookup_insert_eq ].
    cbn. change (Server.members (Server.set_rooms _ (server sys))) with
      (Server.members (server sys)). rewrite Hown. fold e.
    f_equal. f_equal.
    + destruct (server sys); unfold Server.set_rooms; cbn. f_equal.
      by rewrite insert_insert_eq.
    + apply map_eq. intros y. rewrite !deliver1_lookup. cbn.
      destruct (decide (sid = y)) as [->|N].
      * rewrite !lookup_insert_eq. cbn. destruct (decide _); [set_solver|done].
      * rewrite !lookup_insert_ne by done. rewrite deliver1_lookup.
        rewrite lookup_insert_ne by done. destruct (clients sys !! y); cbn; [|done].
        by destruct (decide _).
  - cbn. by rewrite Hsid.
  - cbn. by rewrite lookup_insert_eq.
  - intros y cy Hy Hcy. cbn. destruct (decide (sid = y)) as [->|N].
    + by rewrite Hsid.
    + rewrite deliver1_lookup, lookup_insert_ne, Hcy by done. cbn.
      destruct (decide _) as [|Hn]; [done|]. set_solver.
Qed.

End Clearing.

Lemma clear_click_idempotent_witness :
  ∃ sys1,
    act "A" Client.clear_click Scenes.paired = Some sys1 ∧
    act "A" Client.clear_click sys1 = Some sys1 ∧
    Client.output <$> clients sys1 !! "A" = Some [] ∧
    output <$> Server.rooms (server sys1) !! Client.roomId (Scenes.page "A" Scenes.paired)
      = Some [] ∧
    (∀ y cy,
       y ∈ Server.members (server Scenes.paired)
             (Client.roomId (Scenes.page "A" Scenes.paired)) →
       clients Scenes.paired !! y = Some cy →
       Client.output <$> clients sys1 !! y = Some []).
Proof.
  apply (clear_click_idempotent
           Scenes.paired "A" (Scenes.page "A" Scenes.paired) Server.defaultRoom).
  - vm_compute. reflexivity.
  - vm_compute. reflexivity.
  - vm_compute. reflexivity.
  - vm_compute. reflexivity.
Defined.


(** C9.  Two pages are in room "r", whose output is the default line.
    With the Clear button that only calls [setOutput([])], pressing it
    twice empties the output of page "A" and leaves the room store and
    page "B" with the default line.  With the Clear button that also emits
    [output_change], pressing it once or twice leaves all three empty. *)
Theorem clear_local_variant_skips_the_room :
  outputs <$> two_clients =
    Some (Some ["Ready to execute..."], Some ["Ready to execute..."],
          Some ["Ready to execute..."]) ∧
  outputs <$> clear_twice Client.clear_click_local =
    Some (Some [], Some ["Ready to execute..."], Some ["Ready to execute..."]) ∧
  outputs <$> clear_once Client.clear_click = Some (Some [], Some [], Some []) ∧
  outputs <$> clear_twice Client.clear_click = Some (Some [], Some [], Some []).
Proof. split_and!; vm_compute; reflexivity. Qed.

(** ** The scenarios of the specification *)

(** "A" joins and gets the defaults, "B" joins and gets the same. *)
Example both_get_the_defaults :
  (sys ← two_editors; view "A" sys) =
    Some (Some (code Server.defaultRoom), code Server.defaultRoom, "javascript",
          ["Ready to execute..."], 2) ∧
  (sys ← two_editors; view "B" sys) =
    Some (Some (code Server.defaultRoom), code Server.defaultRoom, "javascript",
          ["Ready to execute..."], 2).
Proof. split; vm_compute; reflexivity. Qed.

(** "A" replaces the text by [print(1)]: "B" shows it and the store holds it. *)
Example edit_reaches_the_other_page :
  (sys ← two_editors;
   sys ← act "A" (Client.user_types
                    [mkChange 0 (String.length (code Server.defaultRoom))
                              ("print(1)" ++ nl)]) sys;
   Some (fst <$> view "B" sys, code <$> Server.rooms (server sys) !! "abc123")) =
  Some (Some (Some ("print(1)" ++ nl), "print(1)" ++ nl, "javascript",
              ["Ready to execute..."]),
        Some ("print(1)" ++ nl)).
Proof. vm_compute. reflexivity. Qed.

(** "A" closes its page while "B" remains: after the cleanup "B" shows one
    member and the room is still in the store. *)
Example one_page_closes :
  (sys ← two_editors; sys ← close "A" sys; sys ← cleanup sys;
   Some (snd <$> view "B" sys, view "A" sys,
         bool_decide (is_Some (Server.rooms (server sys) !! "abc123")))) =
  Some (Some 1, None, true).
Proof. vm_compute. reflexivity. Qed.

(** What "A" types after its snapshot and before the snapshot's timer has
    run stays in its own buffer: the store does not get it. *)
Example typing_before_the_timer_is_not_sent :
  (sys ← connect "A" init;
   sys ← act "A" (Client.joinRoom "abc123") sys;
   sys ← act "A" Client.handleEditorDidMount sys;
   sys ← act "A" (Client.user_types [mkChange 0 0 "x"]) sys;
   Some (Client.editorRef <$> clients sys !! "A",
         code <$> Server.rooms (server sys) !! "abc123")) =
  Some (Some (Some ("x" ++ code Server.defaultRoom)), Some (code Server.defaultRoom)).
Proof. vm_compute. reflexivity. Qed.

End SystemFacts.

(** ** The room store and the bookkeeping *)
Module StoreFacts.
Import Wire Server ServerFacts Ledger.
#[local] Set Warnings "-clear-no-such-hyp".

Lemma recorded_inv_init : recorded_inv init.
Proof.
  split_and!; cbn.
  - intros x r H. by rewrite lookup_empty in H.
  - intros x r H. by rewrite lookup_empty in H.
  - intros r y H. by apply elem_of_nil in H.
Qed.

Lemma recorded_inv_step s ev s' out :
  recorded_inv s → step s ev = Some (s', out) → recorded_inv s'.
Proof.
  intros (R1 & R2 & R3) Hstep. pose proof (step_inv _ _ _ _ Hstep) as Hsp.
  split_and!.
  - intros x r. rewrite (step_members _ _ _ _ r Hstep), (step_sockets _ _ _ _ Hstep).
    inversion Hsp; subst; clear Hsp; cbn [socketRoomMap set_rooms set_timers];
      try match goal with m : client_msg |- _ => destruct m end;
      try (intros Hm Hne; destruct (R1 _ _ Hm Hne); decs; set_solver).
    + (* join *)
      destruct (decide (x0 = x)) as [->|N].
      * rewrite lookup_insert_eq. intros [= ->] _. decs; set_solver.
      * rewrite lookup_insert_ne by done.
        intros Hm Hne; destruct (R1 _ _ Hm Hne); decs; set_solver.
    + (* disconnect with a room *)
      destruct (decide (x0 = x)) as [->|N]; [by rewrite lookup_delete_eq|].
      rewrite lookup_delete_ne by done.
      intros Hm Hne; destruct (R1 _ _ Hm Hne); decs; set_solver.
    + destruct (decide (size _ = 0)); cbn; intros Hm Hne;
        destruct (R1 _ _ Hm Hne); set_solver.
  - intros x r.
    inversion Hsp; subst; clear Hsp; cbn [socketRoomMap rooms set_rooms set_timers];
      try (by apply R2).
    + intros Hm. destruct (decide (roomId = r)) as [->|N];
        [rewrite lookup_insert_eq; eauto|].
      rewrite lookup_insert_ne by done. revert Hm.
      destruct (decide (x0 = x)) as [->|N'];
        [rewrite lookup_insert_eq; by intros [= ?]|rewrite lookup_insert_ne by done].
      apply R2.
    + intros Hm. destruct (decide (roomId = r)) as [->|N];
        [rewrite lookup_insert_eq; eauto|].
      rewrite lookup_insert_ne by done. by eapply R2.
    + intros Hm. destruct (decide (roomId = r)) as [->|N];
        [rewrite lookup_insert_eq; eauto|].
      rewrite lookup_insert_ne by done. by eapply R2.
    + intros Hm. destruct (decide (roomId = r)) as [->|N];
        [rewrite lookup_insert_eq; eauto|].
      rewrite lookup_insert_ne by done. by eapply R2.
    + destruct (decide (x0 = x)) as [->|N]; [by rewrite lookup_delete_eq|].
      rewrite lookup_delete_ne by done. apply R2.
    + destruct (decide (size _ = 0)) as [Hz|]; cbn; [|by apply R2]. intros Hm.
      destruct (decide (roomId = r)) as [->|N];
        [|rewrite lookup_delete_ne by done; by eapply R2].
      exfalso. assert (r ≠ "") as Hne.
      { apply (R3 r x0). match goal with E : timers s = _ |- _ => rewrite E end.
        apply elem_of_cons; by left. }
      destruct (R1 _ _ Hm Hne) as [_ Hin].
      apply size_empty_inv in Hz. set_solver.
  - intros r y.
    inversion Hsp; subst; clear Hsp; cbn [timers set_rooms set_timers];
      try (by apply R3).
    + intros Hin. apply elem_of_app in Hin as [Hin|Hin]; [by eapply R3|].
      apply list_elem_of_singleton in Hin. by simplify_eq.
    + intros Hin. apply (R3 r y).
      match goal with E : timers s = _ |- _ => rewrite E end.
      apply elem_of_cons; right. by destruct (decide (size _ = 0)).
Qed.

Lemma recorded_inv_run s tr s' out :
  recorded_inv s → run s tr = Some (s', out) → recorded_inv s'.
Proof. apply (run_invariant recorded_inv). apply recorded_inv_step. Qed.

Lemma recorded_inv_reachable s : reachable s → recorded_inv s.
Proof.
  intros (tr & out & H). eapply recorded_inv_run; [apply recorded_inv_init|done].
Qed.


(** ** The other two fields *)

(** X2.  A language change and an output change for a room the store
    knows behave like an edit, each on its own field: the field takes the
    value received, the two other fields of the room and every other room
    stay as they were, and exactly one message with the bare value goes to
    the members of the room's transport group that are not in the group
    named by the sender's id, which, when no other connection has joined a
    room keyed by that id, are the members other than the sender.  Groups
    and the connection-to-room map are not touched. *)
Theorem language_and_output_stored_and_forwarded
    (s : State) (sid roomId lang : string) (out : list string) (rd : RoomData) :
  reachable s → sid ∈ sockets s →
  rooms s !! roomId = Some rd →
  (∃ s' e,
     step s (Recv sid (language_change roomId lang)) = Some (s', [e]) ∧
     rooms s' !! roomId = Some (mkRoomData (code rd) lang (output rd)) ∧
     (∀ r, r ≠ roomId → rooms s' !! r = rooms s !! r) ∧
     payload e = receive_language lang ∧
     (∀ x, x ∈ recipients e ↔ x ∈ members s roomId ∧ x ∉ members s sid) ∧
     (private s sid → ∀ x, x ∈ recipients e ↔ x ∈ members s roomId ∧ x ≠ sid) ∧
     adapter s' = adapter s ∧ socketRoomMap s' = socketRoomMap s) ∧
  (∃ s' e,
     step s (Recv sid (output_change roomId out)) = Some (s', [e]) ∧
     rooms s' !! roomId = Some (mkRoomData (code rd) (language rd) out) ∧
     (∀ r, r ≠ roomId → rooms s' !! r = rooms s !! r) ∧
     payload e = receive_output out ∧
     (∀ x, x ∈ recipients e ↔ x ∈ members s roomId ∧ x ∉ members s sid) ∧
     (private s sid → ∀ x, x ∈ recipients e ↔ x ∈ members s roomId ∧ x ≠ sid) ∧
     adapter s' = adapter s ∧ socketRoomMap s' = socketRoomMap s).
Proof.
  intros Hr Hin Hrd. pose proof (wf_reachable _ Hr) as W.
  rewrite !step_recv by done. cbn.
  rewrite on_language_change_eq, on_output_change_eq, Hrd.
  split; eexists _, _; (split; [done|]); cbn; split_and!; try done;
    try (by rewrite lookup_insert_eq);
    try (intros r Hr'; by rewrite lookup_insert_ne);
    try (intros x; set_solver);
    intros P x; rewrite (private_members _ _ W P), decide_True by done; set_solver.
Qed.

Lemma language_and_output_stored_and_forwarded_witness :
  (∃ s' e,
     step (state_after busy_room) (Recv "A" (language_change "r" "python")) =
       Some (s', [e]) ∧
     rooms s' !! "r" =
       Some (mkRoomData (code defaultRoom) "python" (output defaultRoom)) ∧
     (∀ r, r ≠ "r" → rooms s' !! r = rooms (state_after busy_room) !! r) ∧
     payload e = receive_language "python" ∧
     (∀ x, x ∈ recipients e ↔
           x ∈ members (state_after busy_room) "r" ∧
           x ∉ members (state_after busy_room) "A") ∧
     (private (state_after busy_room) "A" →
        ∀ x, x ∈ recipients e ↔ x ∈ members (state_after busy_room) "r" ∧ x ≠ "A") ∧
     adapter s' = adapter (state_after busy_room) ∧
     socketRoomMap s' = socketRoomMap (state_after busy_room)) ∧
  (∃ s' e,
     step (state_after busy_room) (Recv "A" (output_change "r" ["42"])) =
       Some (s', [e]) ∧
     rooms s' !! "r" =
       Some (mkRoomData (code defaultRoom) (language defaultRoom) ["42"]) ∧
     (∀ r, r ≠ "r" → rooms s' !! r = rooms (state_after busy_room) !! r) ∧
     payload e = receive_output ["42"] ∧
     (∀ x, x ∈ recipients e ↔
           x ∈ members (state_after busy_room) "r" ∧
           x ∉ members (state_after busy_room) "A") ∧
     (private (state_after busy_room) "A" →
        ∀ x, x ∈ recipients e ↔ x ∈ members (state_after busy_room) "r" ∧ x ≠ "A") ∧
     adapter s' = adapter (state_after busy_room) ∧
     socketRoomMap s' = socketRoomMap (state_after busy_room)).
Proof.
  apply (language_and_output_stored_and_forwarded
           (state_after busy_room) "A" "r" "python" ["42"] defaultRoom).
  - apply reachable_after.
  - vm_compute. reflexivity.
  - vm_compute. reflexivity.
Defined.

Lemma run_two s e1 e2 s1 o1 s2 o2 :
  step s e1 = Some (s1, o1) → step s1 e2 = Some (s2, o2) →
  run s [e1; e2] = Some (s2, (o1 ++ o2)%list).
Proof. intros H1 H2. cbn. rewrite H1. cbn. rewrite H2. cbn. by rewrite app_nil_r. Qed.

Lemma run_cons s ev tr s1 o1 s2 o2 :
  step s ev = Some (s1, o1) → run s1 tr = Some (s2, o2) →
  run s (ev :: tr) = Some (s2, (o1 ++ o2)%list).
Proof. intros H1 H2. cbn. rewrite H1. cbn. by rewrite H2. Qed.

Lemma step_code_change s x r c d rd :
  x ∈ sockets s → rooms s !! r = Some rd →
  step s (Recv x (code_change r c d)) =
  Some (set_rooms (<[r := mkRoomData c (language rd) (output rd)]>) s,
        [Emit (members s r ∖ members s x) (receive_code c d)]).
Proof. intros Hx Hrd. rewrite step_recv by done. cbn. by rewrite on_code_change_eq, Hrd. Qed.

Lemma step_language_change s x r l rd :
  x ∈ sockets s → rooms s !! r = Some rd →
  step s (Recv x (language_change r l)) =
  Some (set_rooms (<[r := mkRoomData (code rd) l (output rd)]>) s,
        [Emit (members s r ∖ members s x) (receive_language l)]).
Proof. intros Hx Hrd. rewrite step_recv by done. cbn. by rewrite on_language_change_eq, Hrd. Qed.

Lemma step_output_change s x r o rd :
  x ∈ sockets s → rooms s !! r = Some rd →
  step s (Recv x (output_change r o)) =
  Some (set_rooms (<[r := mkRoomData (code rd) (language rd) o]>) s,
        [Emit (members s r ∖ members s x) (receive_output o)]).
Proof. intros Hx Hrd. rewrite step_recv by done. cbn. by rewrite on_output_change_eq, Hrd. Qed.

Lemma set_rooms_twice s r rd1 rd2 :
  set_rooms (<[r := rd2]>) (set_rooms (<[r := rd1]>) s) = set_rooms (<[r := rd2]>) s.
Proof. unfold set_rooms; cbn. by rewrite insert_insert_eq. Qed.

Lemma set_rooms_lookup s r rd : rooms (set_rooms (<[r := rd]>) s) !! r = Some rd.
Proof. cbn. apply lookup_insert_eq. Qed.

(** X3.  The room store keeps the last value written to each field and
    nothing of the values before it, and writes to different fields of a
    room do not disturb each other.  Of two edits to the same room in a
    row, whoever sent them, the first leaves no trace: the state after
    both is the state the second alone would have produced.  An edit and a
    language change, an edit and an output change, a language change and
    an output change arrive at the same state in either order. *)
Theorem last_write_wins_and_fields_commute
    (s : State) (a b r c1 c2 l : string) (d1 d2 : option Delta)
    (o : list string) (rd : RoomData) :
  a ∈ sockets s → b ∈ sockets s →
  rooms s !! r = Some rd →
  (∃ s' out1 out2,
     run s [Recv a (code_change r c1 d1); Recv b (code_change r c2 d2)]
       = Some (s', out1) ∧
     step s (Recv b (code_change r c2 d2)) = Some (s', out2) ∧
     rooms s' !! r = Some (mkRoomData c2 (language rd) (output rd))) ∧
  (∃ s' out1 out2,
     run s [Recv a (code_change r c1 d1); Recv b (language_change r l)]
       = Some (s', out1) ∧
     run s [Recv b (language_change r l); Recv a (code_change r c1 d1)]
       = Some (s', out2) ∧
     rooms s' !! r = Some (mkRoomData c1 l (output rd))) ∧
  (∃ s' out1 out2,
     run s [Recv a (code_change r c1 d1); Recv b (output_change r o)]
       = Some (s', out1) ∧
     run s [Recv b (output_change r o); Recv a (code_change r c1 d1)]
       = Some (s', out2) ∧
     rooms s' !! r = Some (mkRoomData c1 (language rd) o)) ∧
  (∃ s' out1 out2,
     run s [Recv a (language_change r l); Recv b (output_change r o)]
       = Some (s', out1) ∧
     run s [Recv b (output_change r o); Recv a (language_change r l)]
       = Some (s', out2) ∧
     rooms s' !! r = Some (mkRoomData (code rd) l o)).
Proof.
  intros Ha Hb Hrd. split_and!; eexists _, _, _.
  - split_and!.
    + eapply run_two; [by apply step_code_change|].
      apply step_code_change; [done|apply set_rooms_lookup].
    + cbn [language output]. rewrite set_rooms_twice. by apply step_code_change.
    + apply set_rooms_lookup.
  - split_and!.
    + eapply run_two; [by apply step_code_change|].
      apply step_language_change; [done|apply set_rooms_lookup].
    + cbn [code output]. rewrite set_rooms_twice.
      eapply run_two; [by apply step_language_change|].
      etransitivity; [apply step_code_change; [done|apply set_rooms_lookup]|].
      cbn [code language output]. by rewrite set_rooms_twice.
    + apply set_rooms_lookup.
  - split_and!.
    + eapply run_two; [by apply step_code_change|].
      apply step_output_change; [done|apply set_rooms_lookup].
    + cbn [code language]. rewrite set_rooms_twice.
      eapply run_two; [by apply step_output_change|].
      etransitivity; [apply step_code_change; [done|apply set_rooms_lookup]|].
      cbn [code language output]. by rewrite set_rooms_twice.
    + apply set_rooms_lookup.
  - split_and!.
    + eapply run_two; [by apply step_language_change|].
      apply step_output_change; [done|apply set_rooms_lookup].
    + cbn [code language]. rewrite set_rooms_twice.
      eapply run_two; [by apply step_output_change|].
      etransitivity; [apply step_language_change; [done|apply set_rooms_lookup]|].
      cbn [code language output]. by rewrite set_rooms_twice.
    + apply set_rooms_lookup.
Qed.


Lemma last_write_wins_and_fields_commute_witness :
  (∃ s' out1 out2,
     run (state_after busy_room)
       [Recv "A" (code_change "r" "a" None); Recv "B" (code_change "r" "b" None)]
       = Some (s', out1) ∧
     step (state_after busy_room) (Recv "B" (code_change "r" "b" None))
       = Some (s', out2) ∧
     rooms s' !! "r" =
       Some (mkRoomData "b" (language defaultRoom) (output defaultRoom))) ∧
  (∃ s' out1 out2,
     run (state_after busy_room)
       [Recv "A" (code_change "r" "a" None); Recv "B" (language_change "r" "java")]
       = Some (s', out1) ∧
     run (state_after busy_room)
       [Recv "B" (language_change "r" "java"); Recv "A" (code_change "r" "a" None)]
       = Some (s', out2) ∧
     rooms s' !! "r" = Some (mkRoomData "a" "java" (output defaultRoom))) ∧
  (∃ s' out1 out2,
     run (state_after busy_room)
       [Recv "A" (code_change "r" "a" None); Recv "B" (output_change "r" [])]
       = Some (s', out1) ∧
     run (state_after busy_room)
       [Recv "B" (output_change "r" []); Recv "A" (code_change "r" "a" None)]
       = Some (s', out2) ∧
     rooms s' !! "r" = Some (mkRoomData "a" (language defaultRoom) [])) ∧
  (∃ s' out1 out2,
     run (state_after busy_room)
       [Recv "A" (language_change "r" "java"); Recv "B" (output_change "r" [])]
       = Some (s', out1) ∧
     run (state_after busy_room)
       [Recv "B" (output_change "r" []); Recv "A" (language_change "r" "java")]
       = Some (s', out2) ∧
     rooms s' !! "r" = Some (mkRoomData (code defaultRoom) "java" [])).
Proof.
  apply (last_write_wins_and_fields_commute
           (state_after busy_room) "A" "B" "r" "a" "b" "java" None None []
           defaultRoom).
  - vm_compute. reflexivity.
  - vm_compute. reflexivity.
  - vm_compute. reflexivity.
Defined.

(** X4.  What a joiner is sent reflects every write made before it: after
    an edit, a language change and an output change to a room, the next
    connection to join gets a snapshot holding exactly the three values
    written, and they are what the store holds. *)
Theorem join_after_writes_gets_what_was_written
    (s : State) (a b e j r c l : string) (d : option Delta) (o : list string)
    (rd : RoomData) :
  a ∈ sockets s → b ∈ sockets s → e ∈ sockets s → j ∈ sockets s →
  rooms s !! r = Some rd →
  ∃ s' out,
    run s [Recv a (code_change r c d); Recv b (language_change r l);
           Recv e (output_change r o); Recv j (join_room r)] = Some (s', out) ∧
    rooms s' !! r = Some (mkRoomData c l o) ∧
    Emit (members s' j) (sync_state (mkRoomData c l o)) ∈ out ∧
    (∀ rc st, Emit rc (sync_state st) ∈ out → st = mkRoomData c l o).
Proof.
  intros Ha Hb He Hj Hrd. eexists _, _. split.
  { eapply run_cons; [by apply step_code_change|].
    eapply run_cons; [apply step_language_change; [done|apply set_rooms_lookup]|].
    rewrite set_rooms_twice.
    eapply run_cons; [apply step_output_change; [done|apply set_rooms_lookup]|].
    rewrite set_rooms_twice. cbn [code language output].
    eapply run_cons; [|done].
    rewrite step_recv by done. cbn [dispatch]. apply on_join_room_eq. }
  cbn. rewrite !lookup_insert_eq. cbn. split_and!.
  - done.
  - set_solver.
  - intros rc st Hin. rewrite !elem_of_cons, elem_of_nil in Hin.
    destruct Hin as [?|[?|[?|[?|[?|[]]]]]]; by simplify_eq.
Qed.

Lemma join_after_writes_gets_what_was_written_witness :
  ∃ s' out,
    run (state_after busy_room)
        [Recv "A" (code_change "r" "print(1)" None);
         Recv "B" (language_change "r" "python");
         Recv "A" (output_change "r" ["1"]); Recv "B" (join_room "r")]
      = Some (s', out) ∧
    rooms s' !! "r" = Some (mkRoomData "print(1)" "python" ["1"]) ∧
    Emit (members s' "B") (sync_state (mkRoomData "print(1)" "python" ["1"])) ∈ out ∧
    (∀ rc st, Emit rc (sync_state st) ∈ out →
       st = mkRoomData "print(1)" "python" ["1"]).
Proof.
  apply (join_after_writes_gets_what_was_written
           (state_after busy_room) "A" "B" "A" "B" "r" "print(1)" "python" None ["1"]
           defaultRoom); vm_compute; reflexivity.
Defined.

(** ** What the bookkeeping guarantees *)

(** X5.  In every state the server can reach, a connection the map
    records in a room (the key not empty) is connected and a member of
    that room's transport group, and the room is in the store: the store
    never loses a room that still has a recorded member.  So an edit such
    a connection sends for its room is never dropped by the guard for
    unknown rooms: it is stored. *)
Theorem recorded_room_is_live (s : State) (x r : string) :
  reachable s →
  socketRoomMap s !! x = Some r → r ≠ "" →
  x ∈ sockets s ∧ x ∈ members s r ∧ is_Some (rooms s !! r) ∧
  ∀ c d, ∃ s' e,
    step s (Recv x (code_change r c d)) = Some (s', [e]) ∧
    code <$> rooms s' !! r = Some c.
Proof.
  intros Hr Hm Hne. destruct (recorded_inv_reachable _ Hr) as (R1 & R2 & _).
  destruct (R1 _ _ Hm Hne) as [Hx Hin]. destruct (R2 _ _ Hm) as [rd Hrd].
  split_and!; [done|done|by eauto|].
  intros c d. rewrite (step_code_change _ _ _ _ _ _ Hx Hrd).
  eexists _, _. split; [done|]. by rewrite set_rooms_lookup.
Qed.

Lemma recorded_room_is_live_witness :
  "A" ∈ sockets (state_after busy_room) ∧
  "A" ∈ members (state_after busy_room) "r" ∧
  is_Some (rooms (state_after busy_room) !! "r") ∧
  ∀ c d, ∃ s' e,
    step (state_after busy_room) (Recv "A" (code_change "r" c d)) = Some (s', [e]) ∧
    code <$> rooms s' !! "r" = Some c.
Proof.
  apply (recorded_room_is_live (state_after busy_room) "A" "r").
  - apply reachable_after.
  - vm_compute. reflexivity.
  - discriminate.
Defined.

(** X6.  The guard [if (roomId)] of the disconnect listener treats the
    empty key as no room.  When a connection recorded in the room whose
    key is the empty string disconnects, nothing is emitted, no cleanup is
    scheduled and its entry stays in the connection-to-room map; and
    whatever happens afterwards, the room with the empty key is never
    deleted from the store. *)
Theorem empty_key_room_is_never_cleaned_up (s : State) (x : string) :
  reachable s →
  x ∈ sockets s →
  socketRoomMap s !! x = Some "" →
  ∃ s',
    step s (Disconnect x) = Some (s', []) ∧
    timers s' = timers s ∧
    socketRoomMap s' !! x = Some "" ∧
    members s' "" = members s "" ∖ {[x]} ∧
    ∀ tr s'' out, run s' tr = Some (s'', out) → is_Some (rooms s'' !! "").
Proof.
  intros Hr Hx Hm.
  destruct (step_total s (Disconnect x)) as [[s' o] Hstep].
  pose proof (reachable_step _ _ _ _ Hr Hstep) as Hr'.
  pose proof (step_members _ _ _ _ "" Hstep) as Hmem.
  pose proof (step_inv _ _ _ _ Hstep) as Hsp.
  assert (o = [] ∧ timers s' = timers s ∧ socketRoomMap s' = socketRoomMap s
          ∧ rooms s' = rooms s) as (-> & Ht & Hmap & Hrooms).
  { inversion Hsp; subst; clear Hsp; try done. congruence. }
  exists s'. split_and!; [done|done|congruence| |].
  { rewrite Hmem. by rewrite decide_True. }
  assert (is_Some (rooms s' !! "")) as Hhas.
  { rewrite Hrooms. destruct (recorded_inv_reachable _ Hr) as (_ & R2 & _). eauto. }
  pose proof (recorded_inv_reachable _ Hr') as Hinv.
  clear -Hhas Hinv. intros tr. revert s' Hhas Hinv.
  induction tr as [|ev tr IH]; intros s' Hhas Hinv s'' out; cbn.
  - intros; by simplify_eq.
  - destruct (step s' ev) as [[s1 o1]|] eqn:E; cbn; [|done].
    destruct (run s1 tr) as [[s2 o2]|] eqn:E2; cbn; [|done].
    intros; simplify_eq. eapply IH; [|by eapply recorded_inv_step|done].
    destruct Hinv as (_ & _ & R3).
    pose proof (step_inv _ _ _ _ E) as Hsp.
    inversion Hsp; subst; clear Hsp; cbn; try done.
    + rewrite lookup_insert_is_Some. destruct (decide (roomId = "")); eauto.
    + rewrite lookup_insert_is_Some. destruct (decide (roomId = "")); eauto.
    + rewrite lookup_insert_is_Some. destruct (decide (roomId = "")); eauto.
    + rewrite lookup_insert_is_Some. destruct (decide (roomId = "")); eauto.
    + destruct (decide (size _ = 0)); cbn; [|done].
      rewrite lookup_delete_ne; [done|].
      apply (R3 roomId x).
      match goal with E : timers _ = _ |- _ => rewrite E end.
      apply elem_of_cons; by left.
Qed.

Lemma empty_key_room_is_never_cleaned_up_witness :
  ∃ s',
    step (state_after nameless) (Disconnect "A") = Some (s', []) ∧
    timers s' = timers (state_after nameless) ∧
    socketRoomMap s' !! "A" = Some "" ∧
    members s' "" = members (state_after nameless) "" ∖ {["A"]} ∧
    ∀ tr s'' out, run s' tr = Some (s'', out) → is_Some (rooms s'' !! "").
Proof.
  apply (empty_key_room_is_never_cleaned_up (state_after nameless) "A").
  - apply reachable_after.
  - vm_compute. reflexivity.
  - vm_compute. reflexivity.
Defined.

(** X7.  Only a join creates a room.  If an event makes a key appear in
    the store, the event is a [join_room] for that key from a connected
    socket, and the new room holds the defaults; an edit, a language
    change or an output change for an unknown key never creates one. *)
Theorem only_a_join_creates_a_room
    (s : State) (ev : event) (s' : State) (out : list emission) (r : string) :
  step s ev = Some (s', out) →
  rooms s !! r = None →
  is_Some (rooms s' !! r) →
  ∃ x, ev = Recv x (join_room r) ∧ x ∈ sockets s ∧
       rooms s' !! r = Some defaultRoom.
Proof.
  intros Hstep Hno Hyes. pose proof (step_inv _ _ _ _ Hstep) as Hsp.
  inversion Hsp; subst; clear Hsp; cbn in Hyes;
    try (rewrite Hno in Hyes; by destruct Hyes).
  - destruct (decide (roomId = r)) as [->|N].
    + exists x. split_and!; [done..|]. cbn. by rewrite lookup_insert_eq, Hno.
    + rewrite lookup_insert_ne, Hno in Hyes by done. by destruct Hyes.
  - destruct (decide (roomId = r)) as [->|N]; [congruence|].
    rewrite lookup_insert_ne, Hno in Hyes by done. by destruct Hyes.
  - destruct (decide (roomId = r)) as [->|N]; [congruence|].
    rewrite lookup_insert_ne, Hno in Hyes by done. by destruct Hyes.
  - destruct (decide (roomId = r)) as [->|N]; [congruence|].
    rewrite lookup_insert_ne, Hno in Hyes by done. by destruct Hyes.
  - destruct (decide (size _ = 0)); cbn in Hyes.
    + apply lookup_delete_is_Some in Hyes as [_ Hyes].
      rewrite Hno in Hyes; by destruct Hyes.
    + rewrite Hno in Hyes; by destruct Hyes.
Qed.

Lemma only_a_join_creates_a_room_witness :
  ∃ x, Recv "A" (join_room "r") = Recv x (join_room "r") ∧
       x ∈ sockets (state_after lobby) ∧
       rooms (state_after (lobby ++ [Recv "A" (join_room "r")])) !! "r"
         = Some defaultRoom.
Proof.
  apply (only_a_join_creates_a_room (state_after lobby) (Recv "A" (join_room "r"))
           (state_after (lobby ++ [Recv "A" (join_room "r")]))
           (log_after (lobby ++ [Recv "A" (join_room "r")])) "r").
  - vm_compute. reflexivity.
  - vm_compute. reflexivity.
  - vm_compute. eauto.
Defined.

(** X8.  [request_users] answers the requester alone, changes nothing, and
    in every reachable state the list it sends is the room's transport
    group, in the order its connections were added to it, without the
    requester: every connection listed is connected and none is the
    requester.  The requester need not be a member of the room it asks
    about, and for a key no one is in the list is empty. *)
Theorem peer_list_is_the_rest_of_the_group (s : State) (sid roomId : string) :
  reachable s →
  sid ∈ sockets s →
  ∃ others,
    step s (Recv sid (request_users roomId)) =
      Some (s, [Emit {[sid]} (all_users others)]) ∧
    (∀ y, y ∈ others ↔ y ∈ members s roomId ∧ y ≠ sid) ∧
    (∀ y, y ∈ others → y ∈ sockets s) ∧
    (adapter s !! roomId = None → others = []) ∧
    others = filter (λ id, id ≠ sid) (Adapter.listing (adapter s) roomId).
Proof.
  intros Hr Hx. destruct (wf_reachable _ Hr) as [_ W2].
  exists (filter (λ id, id ≠ sid) (Adapter.listing (adapter s) roomId)).
  rewrite step_recv by done. cbn.
  assert (∀ y, y ∈ filter (λ id, id ≠ sid) (Adapter.listing (adapter s) roomId) ↔
               y ∈ members s roomId ∧ y ≠ sid) as Hm.
  { intros y. rewrite list_elem_of_filter, AdapterFacts.listing_group.
    unfold members. tauto. }
  split_and!; [done|done| | |done].
  - intros y Hy. apply Hm in Hy as [Hy _]. by eapply W2.
  - intros Hno. unfold Adapter.listing. by rewrite Hno.
Qed.

Lemma peer_list_is_the_rest_of_the_group_witness :
  ∃ others,
    step (state_after busy_room) (Recv "A" (request_users "r")) =
      Some (state_after busy_room, [Emit {["A"]} (all_users others)]) ∧
    (∀ y, y ∈ others ↔ y ∈ members (state_after busy_room) "r" ∧ y ≠ "A") ∧
    (∀ y, y ∈ others → y ∈ sockets (state_after busy_room)) ∧
    (adapter (state_after busy_room) !! "r" = None → others = []) ∧
    others = filter (λ id, id ≠ "A") (Adapter.listing (adapter (state_after busy_room)) "r").
Proof.
  apply (peer_list_is_the_rest_of_the_group (state_after busy_room) "A" "r").
  - apply reachable_after.
  - vm_compute. reflexivity.
Defined.

(** X9.  A member leaves a room others are still in.  With no cleanup
    pending, when a connection recorded in a room disconnects the listener
    emits nothing; when its timer runs, the members that remain are told
    the count, one less than before, and, no other connection having
    joined a room keyed by the leaver's id, that this connection has left.
    The room keeps its state, and the connection's entry is gone from the
    map. *)
Theorem leaver_is_announced_to_the_rest (s : State) (x y r : string) :
  x ∈ sockets s →
  private s x →
  socketRoomMap s !! x = Some r → r ≠ "" →
  timers s = [] →
  x ∈ members s r → y ∈ members s r → y ≠ x →
  ∃ s1 s2 rest,
    step s (Disconnect x) = Some (s1, []) ∧
    step s1 Timeout =
      Some (s2, [Emit rest (user_count (size (members s r) - 1));
                 Emit rest (user_left x)]) ∧
    (∀ z, z ∈ rest ↔ z ∈ members s r ∧ z ≠ x) ∧
    rooms s2 = rooms s ∧ timers s2 = [] ∧ socketRoomMap s2 !! x = None.
Proof.
  intros Hx Hp Hm Hne Ht Hxin Hyin Hyx.
  assert (truthy r = true) as Htr by by apply truthy_spec.
  assert (size (members s r ∖ {[x]}) = size (members s r) - 1) as Hsz.
  { rewrite size_difference by set_solver. by rewrite size_singleton. }
  eexists _, _, (members s r ∖ {[x]}). split_and!.
  - cbn [step]. rewrite decide_True by done. unfold on_disconnect. cbn.
    by rewrite Hm, Htr.
  - cbn. rewrite Ht. cbn. unfold on_timeout, io_to, socket_to, members. cbn.
    rewrite !AdapterFacts.group_delAll. fold (members s r). fold (members s x).
    assert (members s r ∖ {[x]} ∖ (members s x ∖ {[x]}) = members s r ∖ {[x]}) as ->.
    { unfold private in Hp. set_solver. }
    destruct (decide (size (members s r ∖ {[x]}) = 0)) as [Hz|_].
    { exfalso. apply size_empty_inv in Hz. set_solver. }
    by rewrite Hsz.
  - set_solver.
  - done.
  - done.
  - cbn. apply lookup_delete_eq.
Qed.

Lemma leaver_is_announced_to_the_rest_witness :
  ∃ s1 s2 rest,
    step (state_after busy_room) (Disconnect "A") = Some (s1, []) ∧
    step s1 Timeout =
      Some (s2, [Emit rest (user_count (size (members (state_after busy_room) "r") - 1));
                 Emit rest (user_left "A")]) ∧
    (∀ z, z ∈ rest ↔ z ∈ members (state_after busy_room) "r" ∧ z ≠ "A") ∧
    rooms s2 = rooms (state_after busy_room) ∧ timers s2 = [] ∧
    socketRoomMap s2 !! "A" = None.
Proof.
  apply (leaver_is_announced_to_the_rest (state_after busy_room) "A" "B" "r").
  - vm_compute. reflexivity.
  - unfold private. vm_compute. intros z Hz. exact Hz.
  - vm_compute. reflexivity.
  - discriminate.
  - vm_compute. reflexivity.
  - vm_compute. reflexivity.
  - vm_compute. reflexivity.
  - discriminate.
Defined.

End StoreFacts.

(** ** The page *)
Module PageFacts.
Import Wire Client Page.

Section Invariants.
Context {E : Editor}.

Lemma setValue_unflagged_fields v c :
  isRemoteUpdate (editor_setValue v c) = isRemoteUpdate c ∧
  pending (editor_setValue v c) = pending c ∧
  language (editor_setValue v c) = language c ∧
  output (editor_setValue v c) = output c ∧
  roomId (editor_setValue v c) = roomId c.
Proof.
  unfold editor_setValue. destruct (editorRef c); [|done].
  unfold onDidChangeModelContent. cbn.
  destruct (isRemoteUpdate c) eqn:F; cbn; by rewrite ?F.
Qed.

Lemma user_types_fields d c :
  isRemoteUpdate (user_types d c) = isRemoteUpdate c ∧
  pending (user_types d c) = pending c.
Proof.
  unfold user_types. destruct (editorRef c); [|done].
  unfold onDidChangeModelContent. cbn.
  destruct (isRemoteUpdate c) eqn:F; cbn; by rewrite ?F.
Qed.

Lemma synced_perform c a :
  synced c →
  match a with Types _ => isRemoteUpdate c = false | _ => True end →
  synced (perform c a).
Proof.
  unfold synced. intros Hs Ha. destruct a as [m|d|i|  |k| | |res]; cbn [perform].
  - destruct m; cbn [on_message]; try done.
    + rewrite ClientFacts.sync_state_eq. cbn.
      destruct (editorRef c); cbn; [by right; right|by left].
    + destruct (editorRef c) as [old|] eqn:He;
        [|unfold on_receive_code; rewrite He; by left].
      destruct delta as [d|].
      * destruct (executeEdits d old) as [new|] eqn:Hx.
        -- rewrite (ClientFacts.receive_code_delta _ _ old new) by done. cbn.
           by right; left.
        -- rewrite (ClientFacts.receive_code_thrown _ _ old) by done. cbn.
           by rewrite He.
      * rewrite (ClientFacts.receive_code_full _ old) by done. cbn. by right; right.
  - unfold user_types.
    destruct (editorRef c) as [old|] eqn:He; [|rewrite He; by left].
    unfold onDidChangeModelContent. cbn. rewrite Ha. cbn. by right; left.
  - unfold fire_timeout. by destruct (pending c !! i).
  - cbn. by right; right.
  - unfold handleLanguageChange. cbn. destruct (editorRef c) as [old|] eqn:He; cbn.
    + unfold editor_setValue. cbn. rewrite He. unfold onDidChangeModelContent. cbn.
      destruct (isRemoteUpdate c); cbn; by right; right.
    + rewrite He. by left.
  - done.
  - unfold runCode_click. cbn. by destruct (lookup_LANGUAGES (language c)).
  - unfold runCode_settled. by destruct res.
Qed.

(** X10.  The [code] state, which Run and Save read, follows the mounted
    editor as long as the user does not type while the flag is set: it is
    the text the editor shows, or a text the editor was given and holds as
    what it shows (the editor settles on one line ending, so the two may
    differ in their line endings).  Whatever else happens to the page
    (messages from the server, an edit the editor refuses, timers, a
    language pick, Clear, Run and its answer, typing with the flag clear),
    if that was so before, it is after.  This holds for every editor. *)
Theorem code_state_tracks_the_buffer (c : Client) (acts : list action) :
  synced c → unraced c acts → synced (perform_all c acts).
Proof.
  revert c. induction acts as [|a acts IH]; intros c Hs Hu; [done|].
  destruct Hu as [Ha Hu]. cbn. apply IH; [|done]. by apply synced_perform.
Qed.

Lemma pending_sync_state st c :
  pending (on_sync_state st c) = (pending c ++ [100])%list.
Proof. by rewrite ClientFacts.sync_state_eq. Qed.

Lemma flag_backed_perform c a :
  flag_backed c →
  match a with Hears (receive_code _ (Some d)) => accepted d c | _ => True end →
  flag_backed (perform c a).
Proof.
  unfold flag_backed. intros Hb Ha. destruct a as [m|d|i|  |k| | |res]; cbn [perform].
  - destruct m; cbn [on_message]; try done.
    + intros _. rewrite pending_sync_state. by destruct (pending c).
    + destruct (editorRef c) as [old|] eqn:He;
        [|unfold on_receive_code; by rewrite He].
      destruct delta as [d|].
      * destruct (Ha old He) as [new Hx].
        by rewrite (ClientFacts.receive_code_delta _ _ old new).
      * intros _. rewrite (ClientFacts.receive_code_full _ old) by done. cbn.
        by destruct (pending c).
  - by destruct (user_types_fields d c) as [-> ->].
  - unfold fire_timeout. by destruct (pending c !! i).
  - done.
  - unfold handleLanguageChange. cbn. destruct (editorRef c) as [old|] eqn:He; cbn; [|done].
    by destruct (setValue_unflagged_fields (CODE_TEMPLATES k)
      (socket_emit (language_change (roomId c) (key_name k)) (setLanguage (key_name k) c)))
      as (-> & -> & _).
  - done.
  - unfold runCode_click. cbn. by destruct (lookup_LANGUAGES (language c)).
  - unfold runCode_settled. by destruct res.
Qed.

Lemma fire_first c :
  pending c ≠ [] →
  isRemoteUpdate (fire_timeout 0 c) = false ∧
  pending (fire_timeout 0 c) = tail (pending c).
Proof.
  unfold fire_timeout. destruct (pending c) as [|ms rest] eqn:He; [done|]. cbn.
  by rewrite ?He.
Qed.

Lemma fire_rest n c :
  isRemoteUpdate c = false → List.length (pending c) = n →
  isRemoteUpdate (perform_all c (replicate n (Fires 0))) = false ∧
  pending (perform_all c (replicate n (Fires 0))) = [].
Proof.
  revert c. induction n as [|n IH]; intros c Hf Hl; cbn.
  - split; [done|]. by destruct (pending c).
  - assert (pending c ≠ []) as Hne by (by destruct (pending c)).
    destruct (fire_first c Hne) as [H1 H2]. apply IH; [done|].
    rewrite H2. destruct (pending c); [done|]. cbn in *. congruence.
Qed.

(** X11.  As long as the editor accepts every delta the page hears, the
    flag is never left set without a reset pending.  A page starts with
    the flag clear; whatever happens to it then, the flag is set only
    while at least one of the reset callbacks given to [setTimeout] has
    not run yet, and once all of those have run the flag is clear and the
    page sends its user's edits again.  (A delta the editor refuses leaves
    the flag set with no reset pending.) *)
Theorem flag_is_cleared_once_the_timers_have_run (c : Client) (acts : list action) :
  flag_backed c →
  unthrown c acts →
  flag_backed (perform_all c acts) ∧
  isRemoteUpdate
    (perform_all (perform_all c acts)
       (replicate (List.length (pending (perform_all c acts))) (Fires 0))) = false.
Proof.
  intros Hb Hu.
  assert (flag_backed (perform_all c acts)) as Hb'.
  { revert c Hb Hu. induction acts as [|a acts IH]; intros c Hb Hu; [done|].
    destruct Hu as [Ha Hu]. cbn. apply IH; [|done]. by apply flag_backed_perform. }
  split; [done|]. set (c' := perform_all c acts) in *.
  destruct (pending c') as [|ms rest] eqn:He.
  - cbn. destruct (isRemoteUpdate c') eqn:F; [|done]. by destruct (Hb' F).
  - cbn [List.length replicate]. change (perform_all c' (Fires 0 :: ?l))
      with (perform_all (fire_timeout 0 c') l).
    assert (pending c' ≠ []) as Hne by by rewrite He.
    destruct (fire_first c' Hne) as [H1 H2].
    apply fire_rest; [done|]. by rewrite H2, He.
Qed.

End Invariants.

Lemma code_state_tracks_the_buffer_witness :
  synced (perform_all mounted
            [Hears (sync_state Server.defaultRoom); Fires 0;
             Types [mkChange 0 0 "x"]; Hears (receive_code "y" None);
             Picks python; Runs]).
Proof.
  apply (code_state_tracks_the_buffer mounted).
  - right. left. reflexivity.
  - vm_compute. tauto.
Defined.

Lemma flag_is_cleared_once_the_timers_have_run_witness :
  flag_backed (perform_all mounted
     [Hears (sync_state Server.defaultRoom); Hears (receive_code "y" None);
      Hears (receive_code "z" (Some [mkChange 0 0 "z"]))]) ∧
  isRemoteUpdate
    (perform_all (perform_all mounted
       [Hears (sync_state Server.defaultRoom); Hears (receive_code "y" None);
        Hears (receive_code "z" (Some [mkChange 0 0 "z"]))])
       (replicate (List.length (pending (perform_all mounted
          [Hears (sync_state Server.defaultRoom); Hears (receive_code "y" None);
           Hears (receive_code "z" (Some [mkChange 0 0 "z"]))])))
          (Fires 0))) = false.
Proof.
  apply (flag_is_cleared_once_the_timers_have_run mounted).
  - intros H. vm_compute in H. discriminate.
  - cbn [unthrown]. split_and!; try exact I.
    intros old Hold. vm_compute in Hold. injection Hold as <-.
    vm_compute. by eexists.
Defined.

(** The editor settles on one line ending; the [code] state keeps the
    text as it was received. *)
Example line_endings_of_a_received_text :
  let text := ("a" ++ String cr (String lf "b") ++ String lf "c")%string in
  let c := on_receive_code text None mounted in
  editorRef c = Some ("a" ++ String lf "b" ++ String lf "c")%string ∧
  code c = text.
Proof. vm_compute. done. Qed.

(** A delta with two changes that overlap: the editor throws, and the
    page is left with the flag set and no reset pending. *)
Example refused_delta_leaves_the_flag_set :
  let c := on_receive_code "x" (Some [mkChange 0 2 "a"; mkChange 1 2 "b"]) mounted in
  isRemoteUpdate c = true ∧ pending c = [] ∧ editorRef c = editorRef mounted.
Proof. vm_compute. done. Qed.

End PageFacts.

(** ** Voice *)
Module VoiceFacts.
Import Wire Voice.
Local Open Scope list_scope.

(** The loop of the [all_users] listener, written out. *)
Lemma all_users_loop users v acc :
  ∃ v',
    fold_left (λ '(v, peersArr) userID,
      let '(h, v) := createPeer userID (socket_id v) v in
      (set_peersRef (λ l, l ++ [mkPeerNode userID h]) v,
       peersArr ++ [mkPeerNode userID h])) users (v, acc)
    = (v', acc ++ imap (λ i u, mkPeerNode u (List.length (instances v) + i)) users) ∧
    peersRef v' =
      peersRef v ++ imap (λ i u, mkPeerNode u (List.length (instances v) + i)) users ∧
    instances v' =
      instances v ++ ((λ u, mkInstance true u (socket_id v) [] false) <$> users) ∧
    peers v' = peers v ∧ emitted v' = emitted v ∧ socket_id v' = socket_id v ∧
    roomId v' = roomId v ∧ audioStream v' = audioStream v ∧
    voiceActive v' = voiceActive v ∧ isMuted v' = isMuted v ∧
    track_enabled v' = track_enabled v.
Proof.
  revert v acc. induction users as [|u users IH]; intros v acc.
  - exists v. cbn. by rewrite !app_nil_r.
  - destruct (IH (set_peersRef (λ l, l ++ [mkPeerNode u (List.length (instances v))])
                  (set_instances (λ l, l ++ [mkInstance true u (socket_id v) [] false]) v))
                 (acc ++ [mkPeerNode u (List.length (instances v))]))
      as (v' & Hf & H1 & H2 & H3 & H4 & H5 & H6 & H7 & H8 & H9 & H10).
    exists v'. cbn in H1, H2, H3, H4, H5, H6, H7, H8, H9, H10.
    rewrite length_app in H1. cbn in H1.
    assert (imap (λ i u0, mkPeerNode u0 (List.length (instances v) + 1 + i)) users =
            imap ((λ i u0, mkPeerNode u0 (List.length (instances v) + i)) ∘ S) users)
      as Himap by (apply imap_ext; intros; cbn; f_equal; lia).
    split_and!; try done.
    + etransitivity; [exact Hf|]. f_equal. cbn. rewrite length_app. cbn.
      rewrite <- app_assoc. cbn. by rewrite Nat.add_0_r, Himap.
    + rewrite H1. cbn. rewrite <- app_assoc. cbn. by rewrite Nat.add_0_r, Himap.
    + rewrite H2. cbn. by rewrite <- app_assoc.
Qed.

Lemma on_all_users_eq users v :
  audioStream v = true →
  let new := imap (λ i u, mkPeerNode u (List.length (instances v) + i)) users in
  peersRef (on_all_users users v) = peersRef v ++ new ∧
  peers (on_all_users users v) = peers v ++ new ∧
  instances (on_all_users users v) =
    instances v ++ ((λ u, mkInstance true u (socket_id v) [] false) <$> users) ∧
  emitted (on_all_users users v) = emitted v ∧
  audioStream (on_all_users users v) = true ∧
  socket_id (on_all_users users v) = socket_id v.
Proof.
  intros Ha. unfold on_all_users. rewrite Ha.
  destruct (all_users_loop users v []) as (v' & -> & H1 & H2 & H3 & H4 & H5 & H6 & H7 & _).
  cbn. rewrite H1, H2, H3, H4, H5, H7. done.
Qed.




Lemma find_peer_filtered id l :
  find_peer id (List.filter (λ p, negb (String.eqb (peerID p) id)) l) = None.
Proof.
  induction l as [|p l IH]; [done|]. cbn.
  destruct (String.eqb (peerID p) id) eqn:E; cbn; [done|]. by rewrite E.
Qed.

Lemma filter_filter_same id l :
  List.filter (λ p, negb (String.eqb (peerID p) id))
    (List.filter (λ p, negb (String.eqb (peerID p) id)) l) =
  List.filter (λ p, negb (String.eqb (peerID p) id)) l.
Proof.
  induction l as [|p l IH]; [done|]. cbn.
  destruct (String.eqb (peerID p) id) eqn:E; cbn; [done|]. rewrite E. cbn. by f_equal.
Qed.

Lemma on_user_left_eq id v :
  on_user_left id v =
  let newPeers := List.filter (λ p, negb (String.eqb (peerID p) id)) (peersRef v) in
  mkVoice (socket_id v) (roomId v) (audioStream v) (voiceActive v) (isMuted v)
          (track_enabled v) newPeers newPeers
          (match find_peer id (peersRef v) with
           | Some n => alter destroy (peer n) (instances v)
           | None => instances v
           end) (emitted v).
Proof. unfold on_user_left. by destruct (find_peer id (peersRef v)). Qed.

(** X13.  [user_left] forgets every peer recorded for the connection that
    left and keeps, in order, the peers recorded for any other; hearing it
    again changes nothing.  It calls [destroy()] on one instance at most,
    the one of the first entry recorded for that connection: when the list
    holds a second entry for it, that entry is dropped with its instance
    still live. *)
Theorem user_left_forgets_the_peer (v : Voice) (id : string) :
  (∀ n, n ∈ peersRef (on_user_left id v) ↔ n ∈ peersRef v ∧ peerID n ≠ id) ∧
  peers (on_user_left id v) = peersRef (on_user_left id v) ∧
  on_user_left id (on_user_left id v) = on_user_left id v ∧
  (∀ h i, instances (on_user_left id v) !! h = Some i →
     instances v !! h = Some i ∨
     ∃ n i0, find_peer id (peersRef v) = Some n ∧ peer n = h ∧
             instances v !! h = Some i0 ∧ i = destroy i0) ∧
  emitted (on_user_left id v) = emitted v.
Proof.
  split_and!.
  - intros n. unfold on_user_left. cbn.
    assert (∀ l, n ∈ List.filter (λ p, negb (String.eqb (peerID p) id)) l ↔
                 n ∈ l ∧ peerID n ≠ id) as Hf.
    { intros l. rewrite !list_elem_of_In, filter_In, negb_true_iff.
      by rewrite String.eqb_neq. }
    destruct (find_peer id (peersRef v)); cbn; apply Hf.
  - unfold on_user_left. by destruct (find_peer id (peersRef v)).
  - pose proof (on_user_left_eq id v) as E. cbv zeta in E.
    rewrite (on_user_left_eq id (on_user_left id v)). cbv zeta. rewrite !E.
    cbn [socket_id roomId audioStream voiceActive isMuted track_enabled peers
         peersRef instances emitted].
    by rewrite find_peer_filtered, filter_filter_same.
  - intros h i. unfold on_user_left. destruct (find_peer id (peersRef v)) as [n|] eqn:E;
      cbn; [|by left].
    destruct (decide (peer n = h)) as [<-|N].
    + rewrite list_lookup_alter_eq. destruct (instances v !! peer n) as [i0|] eqn:E0;
        cbn; [|done].
      intros [= <-]. right. by exists n, i0.
    + rewrite list_lookup_alter_ne by done. by left.
  - unfold on_user_left. by destruct (find_peer id (peersRef v)).
Qed.

(** X14.  A page that has not started voice holds no peer and never
    creates one: with no stream, every voice message it hears (a peer
    list, an offer, an answer, a departure) leaves it exactly as it was.
    It sends nothing, so an offer addressed to it is never answered. *)
Theorem no_stream_no_peer (v : Voice) (ms : list server_msg) :
  audioStream v = false → peers v = [] → peersRef v = [] →
  hear_all v ms = v.
Proof.
  intros Ha Hp Hr. induction ms as [|m ms IH]; [done|]. cbn.
  assert (on_message m v = v) as ->; [|done].
  destruct m; cbn; try done.
  - unfold on_all_users. by rewrite Ha.
  - unfold on_user_joined. by rewrite Ha.
  - unfold on_receiving_returned_signal. by rewrite Hr.
  - unfold on_user_left. rewrite Hr. cbn. destruct v; cbn in *. by subst.
Qed.

Lemma no_stream_no_peer_witness :
  hear_all (init "B" "r")
    [user_joined "offer" "A"; all_users ["A"]; receiving_returned_signal "x" "A";
     user_left "A"] = init "B" "r".
Proof.
  apply (no_stream_no_peer (init "B" "r")); reflexivity.
Defined.

Lemma find_peer_app_miss id l n :
  find_peer id l = None → peerID n = id → find_peer id (l ++ [n]) = Some n.
Proof.
  intros Hl Hn. induction l as [|p l IH]; cbn in *.
  - by rewrite Hn, String.eqb_refl.
  - destruct (String.eqb (peerID p) id); [done|]. by apply IH.
Qed.

(** X15.  An offer and its answer meet.  Page [a] hears that [b] is in
    its room and creates an initiator peer for it; when that peer has its
    offer, the page sends it with its own id as the caller, and the server
    hands it to [b] alone.  Page [b] answers with a new peer that was given
    the offer; when that peer has its answer, the page sends it back
    addressed to the caller, and the server hands it to [a] alone, tagged
    with [b]'s id.  Page [a] gives it to the peer it created for [b].
    Both pages have a stream, each connection's own transport group holds
    that connection only, and [a] had no peer recorded for [b] before. *)
Theorem offer_and_answer_meet
    (s : Server.State) (va vb : Voice) (offer answer : Signal) :
  socket_id va ∈ Server.sockets s → socket_id vb ∈ Server.sockets s →
  Server.members s (socket_id va) = {[socket_id va]} →
  Server.members s (socket_id vb) = {[socket_id vb]} →
  audioStream va = true → audioStream vb = true →
  find_peer (socket_id vb) (peersRef va) = None →
  let a := socket_id va in
  let b := socket_id vb in
  let h := List.length (instances va) in
  let k := List.length (instances vb) in
  let va1 := on_signal h offer (on_all_users [b] va) in
  let vb1 := on_signal k answer (on_user_joined offer a vb) in
  let va2 := on_receiving_returned_signal answer b va1 in
  emitted va1 = emitted va ++ [sending_signal b a offer] ∧
  Server.step s (Server.Recv a (sending_signal b a offer)) =
    Some (s, [Emit {[b]} (user_joined offer a)]) ∧
  instances vb1 !! k = Some (mkInstance false "" a [offer] false) ∧
  emitted vb1 = emitted vb ++ [returning_signal answer a] ∧
  Server.step s (Server.Recv b (returning_signal answer a)) =
    Some (s, [Emit {[a]} (receiving_returned_signal answer b)]) ∧
  instances va2 !! h = Some (mkInstance true b a [answer] false) ∧
  emitted va2 = emitted va1.
Proof.
  intros Ha Hb Hga Hgb Hsa Hsb Hnone a b h k va1 vb1 va2. subst a b.
  destruct (on_all_users_eq [socket_id vb] va Hsa) as (A1 & A2 & A3 & A4 & A5 & A6).
  cbn in A1, A2, A3. fold h in A1, A2. rewrite Nat.add_0_r in A1, A2.
  assert (instances (on_all_users [socket_id vb] va) !! h =
          Some (mkInstance true (socket_id vb) (socket_id va) [] false))
    as Hh by (rewrite A3; by apply list_lookup_middle).
  assert (va1 = socket_emit (sending_signal (socket_id vb) (socket_id va) offer)
                            (on_all_users [socket_id vb] va)) as Hva1.
  { unfold va1, on_signal. by rewrite Hh. }
  assert (instances (on_user_joined offer (socket_id va) vb) !! k =
          Some (mkInstance false "" (socket_id va) [offer] false)) as Hk.
  { unfold on_user_joined. rewrite Hsb. cbn. by apply list_lookup_middle. }
  assert (vb1 = socket_emit (returning_signal answer (socket_id va))
                            (on_user_joined offer (socket_id va) vb))
    as Hvb1.
  { unfold vb1, on_signal. by rewrite Hk. }
  assert (find_peer (socket_id vb) (peersRef va1) = Some (mkPeerNode (socket_id vb) h))
    as Hfind.
  { rewrite Hva1. cbn. rewrite A1. by apply find_peer_app_miss. }
  split_and!.
  - rewrite Hva1. cbn. by rewrite A4.
  - rewrite ServerFacts.step_recv by done. cbn.
    unfold Server.on_sending_signal, Server.io_to. by rewrite Hgb.
  - by rewrite Hvb1.
  - rewrite Hvb1. unfold on_user_joined. by rewrite Hsb.
  - rewrite ServerFacts.step_recv by done. cbn.
    unfold Server.on_returning_signal, Server.io_to. by rewrite Hga.
  - unfold va2, on_receiving_returned_signal. rewrite Hfind. cbn.
    rewrite list_lookup_alter_eq. rewrite Hva1. cbn. by rewrite Hh.
  - unfold va2, on_receiving_returned_signal. by rewrite Hfind.
Qed.

Lemma offer_and_answer_meet_witness :
  emitted (on_signal 0 "offer" (on_all_users ["B"] live)) =
    (emitted live ++ [sending_signal "B" "A" "offer"])%list ∧
  Server.step (Server.state_after Server.busy_room)
      (Server.Recv "A" (sending_signal "B" "A" "offer")) =
    Some (Server.state_after Server.busy_room, [Emit {["B"]} (user_joined "offer" "A")]) ∧
  instances
      (on_signal 0 "answer" (on_user_joined "offer" "A" live_b)) !! 0 =
    Some (mkInstance false "" "A" ["offer"] false) ∧
  emitted
      (on_signal 0 "answer" (on_user_joined "offer" "A" live_b)) =
    (emitted live_b ++ [returning_signal "answer" "A"])%list ∧
  Server.step (Server.state_after Server.busy_room)
      (Server.Recv "B" (returning_signal "answer" "A")) =
    Some (Server.state_after Server.busy_room,
          [Emit {["A"]} (receiving_returned_signal "answer" "B")]) ∧
  instances
      (on_receiving_returned_signal "answer" "B"
         (on_signal 0 "offer" (on_all_users ["B"] live))) !! 0 =
    Some (mkInstance true "B" "A" ["answer"] false) ∧
  emitted
      (on_receiving_returned_signal "answer" "B"
         (on_signal 0 "offer" (on_all_users ["B"] live))) =
    emitted (on_signal 0 "offer" (on_all_users ["B"] live)).
Proof.
  apply (offer_and_answer_meet
           (Server.state_after Server.busy_room) live live_b "offer" "answer");
    vm_compute; reflexivity.
Defined.



(** The peer list is in the order of joining, not of the ids. *)
Example peers_are_listed_in_join_order :
  last (Server.log_after
    [Server.Connect "C"; Server.Connect "B"; Server.Connect "A";
     Server.Recv "C" (join_room "r"); Server.Recv "A" (join_room "r");
     Server.Recv "B" (join_room "r"); Server.Recv "B" (join_room "r");
     Server.Recv "A" (request_users "r")]) =
  Some (Emit {["A"]} (all_users ["C"; "B"])).
Proof. vm_compute. reflexivity. Qed.

End VoiceFacts.

(** ** Server and pages together *)
Module SessionFacts.
Import Wire System Scenes.
#[local] Set Warnings "-clear-no-such-hyp".

Section Sessions.
Context {E : Client.Editor}.

Lemma act_eq sys sid c f :
  clients sys !! sid = Some c →
  act sid f sys =
  send_all sid (Client.emitted (f (Client.set_emitted [] c)))
    (mkSystem (server sys)
       (<[sid := Client.set_emitted [] (f (Client.set_emitted [] c))]> (clients sys))).
Proof. intros Hc. unfold act. by rewrite Hc. Qed.

Lemma send_eq sys sid m s' out :
  Server.step (server sys) (Server.Recv sid m) = Some (s', out) →
  send sid sys m = Some (mkSystem s' (deliver out (clients sys))).
Proof. intros H. unfold send. by rewrite H. Qed.

Lemma send_all_one sid m sys : send_all sid [m] sys = send sid sys m.
Proof. cbn [send_all]. by destruct (send sid sys m). Qed.

(** A forwarded edit without a delta overrides whatever a forwarded edit
    with a delta did just before it, accepted or not. *)
Lemma full_after_delta code1 d code2 v c :
  Client.editorRef c = Some v →
  Client.on_receive_code code2 None (Client.on_receive_code code1 (Some d) c) =
  Client.mkClient (Client.roomId c) (Client.joined c) (Client.language c)
    code2 (Client.output c) (Client.userCount c) true
    (Some (Client.held code2)) (Client.pending c ++ [50])%list (Client.emitted c).
Proof.
  intros He. destruct (Client.executeEdits d v) as [new|] eqn:Hx.
  - rewrite (ClientFacts.receive_code_delta _ _ v new) by done.
    by rewrite (ClientFacts.receive_code_full _ new).
  - rewrite (ClientFacts.receive_code_thrown _ _ v) by done.
    by rewrite (ClientFacts.receive_code_full _ v).
Qed.

Lemma sync_state_fields st c :
  Client.code (Client.on_sync_state st c) = code st ∧
  Client.language (Client.on_sync_state st c) = language st ∧
  Client.output (Client.on_sync_state st c) = output st ∧
  Client.userCount (Client.on_sync_state st c) = Client.userCount c ∧
  Client.roomId (Client.on_sync_state st c) = Client.roomId c ∧
  Client.joined (Client.on_sync_state st c) = Client.joined c ∧
  Client.isRemoteUpdate (Client.on_sync_state st c) = true ∧
  Client.editorRef (Client.on_sync_state st c) =
    (λ _, Client.held (code st)) <$> Client.editorRef c.
Proof. by rewrite ClientFacts.sync_state_eq. Qed.

Lemma client_eta c :
  c = Client.mkClient (Client.roomId c) (Client.joined c) (Client.language c)
        (Client.code c) (Client.output c) (Client.userCount c)
        (Client.isRemoteUpdate c) (Client.editorRef c) (Client.pending c)
        (Client.emitted c).
Proof. by destruct c. Qed.

Lemma send_all_cons sid m ms sys sys1 :
  send sid sys m = Some sys1 →
  send_all sid (m :: ms) sys = send_all sid ms sys1.
Proof. intros H. cbn [send_all]. by rewrite H. Qed.

Lemma send_code_change sys sid r c d rd :
  sid ∈ Server.sockets (server sys) →
  Server.rooms (server sys) !! r = Some rd →
  send sid sys (code_change r c d) =
  Some (mkSystem
          (Server.set_rooms (<[r := mkRoomData c (language rd) (output rd)]>) (server sys))
          (deliver1 (clients sys)
             (Emit (Server.members (server sys) r ∖ Server.members (server sys) sid)
                   (receive_code c d)))).
Proof.
  intros Hs Hr. erewrite send_eq; [|by apply StoreFacts.step_code_change]. done.
Qed.

Lemma send_language_change sys sid r l rd :
  sid ∈ Server.sockets (server sys) →
  Server.rooms (server sys) !! r = Some rd →
  send sid sys (language_change r l) =
  Some (mkSystem
          (Server.set_rooms (<[r := mkRoomData (code rd) l (output rd)]>) (server sys))
          (deliver1 (clients sys)
             (Emit (Server.members (server sys) r ∖ Server.members (server sys) sid)
                   (receive_language l)))).
Proof.
  intros Hs Hr. erewrite send_eq; [|by apply StoreFacts.step_language_change]. done.
Qed.


(** ** An edit, end to end *)

(** X16.  Replication of a typed edit.  Two pages of a room show the same
    text, and no other connection has joined a room keyed by the typing
    page's connection id; the user of that page types an edit while its
    flag is clear, and the delta its editor reports for the edit, replayed
    on the same text, is accepted and gives the text the typing editor now
    holds.  Then that page's buffer, the room's content in the store, and
    the buffer and [code] state of the other page all hold that text; the
    other page sends nothing back; and a page outside the room's transport
    group is left as it was. *)
Theorem typed_edit_reaches_equal_buffers
    (sys : System) (a b : string) (ca cb : Client.Client) (v : string)
    (d : Delta) (rd : RoomData) :
  clients sys !! a = Some ca → clients sys !! b = Some cb →
  a ∈ Server.sockets (server sys) →
  Server.members (server sys) a = {[a]} →
  Server.rooms (server sys) !! Client.roomId ca = Some rd →
  b ∈ Server.members (server sys) (Client.roomId ca) → b ≠ a →
  Client.editorRef ca = Some v → Client.isRemoteUpdate ca = false →
  Client.editorRef cb = Some v →
  Client.executeEdits d v = Some (Client.edited d v) →
  ∃ sys1 ca1 cb1,
    act a (Client.user_types d) sys = Some sys1 ∧
    clients sys1 !! a = Some ca1 ∧ clients sys1 !! b = Some cb1 ∧
    Client.editorRef ca1 = Some (Client.edited d v) ∧
    Client.editorRef cb1 = Some (Client.edited d v) ∧
    Client.code cb1 = Client.edited d v ∧
    code <$> Server.rooms (server sys1) !! Client.roomId ca
      = Some (Client.edited d v) ∧
    Client.emitted cb1 = Client.emitted cb ∧
    (∀ y, y ∉ Server.members (server sys) (Client.roomId ca) → y ≠ a →
          clients sys1 !! y = clients sys !! y).
Proof.
  intros Hca Hcb Ha Hown Hrd Hb Hba Eva Hflag Evb Hreplay.
  set (v' := Client.edited d v) in *.
  assert (Client.user_types d (Client.set_emitted [] ca) =
          Client.mkClient (Client.roomId ca) (Client.joined ca) (Client.language ca)
            v' (Client.output ca) (Client.userCount ca) false (Some v')
            (Client.pending ca) [code_change (Client.roomId ca) v' (Some d)]) as Hty.
  { unfold Client.user_types. cbn [Client.editorRef Client.set_emitted]. rewrite Eva.
    unfold Client.onDidChangeModelContent.
    cbn [Client.isRemoteUpdate Client.set_editorRef Client.editorRef Client.set_emitted].
    rewrite Hflag.
    unfold Client.socket_emit, Client.setCode, Client.set_editorRef, Client.set_emitted.
    cbn. by rewrite Hflag. }
  rewrite (act_eq _ _ _ _ Hca), Hty. cbn [Client.emitted].
  rewrite send_all_one.
  erewrite send_code_change; [|done|done].
  eexists _, _, _. split; [done|]. cbn [clients server deliver fold_left].
  split_and!.
  - rewrite SystemFacts.deliver1_lookup, lookup_insert_eq. cbn.
    rewrite decide_False by set_solver. done.
  - rewrite SystemFacts.deliver1_lookup, lookup_insert_ne, Hcb by done. cbn.
    rewrite decide_True by set_solver.
    by rewrite (ClientFacts.receive_code_delta _ _ v v').
  - done.
  - done.
  - done.
  - cbn. by rewrite lookup_insert_eq.
  - done.
  - intros y Hy Hya. rewrite SystemFacts.deliver1_lookup, lookup_insert_ne by done.
    destruct (clients sys !! y); cbn; [|done]. rewrite decide_False by set_solver. done.
Qed.

(** ** A language pick, end to end *)

(** X17.  Picking a language replaces the code of the room.  When the
    user of a mounted page picks a language, and no other connection has
    joined a room keyed by that page's connection id, the room in the store
    gets that language and that language's template as its content, and so
    do the [code] state of the picking page and of every other mounted page
    of the room, whatever text each of them held before; their editors
    hold what an editor holds for the template.  The text they had is not
    kept anywhere.  The other page is left with its flag set until its
    50 ms timer runs, whether or not its editor accepted the delta that the
    picking page sent first. *)
Theorem language_pick_replaces_the_code_of_the_room
    (sys : System) (a b : string) (ca cb : Client.Client) (va vb : string)
    (k : Page.LangKey) (rd : RoomData) :
  clients sys !! a = Some ca → clients sys !! b = Some cb →
  a ∈ Server.sockets (server sys) →
  Server.members (server sys) a = {[a]} →
  Server.rooms (server sys) !! Client.roomId ca = Some rd →
  b ∈ Server.members (server sys) (Client.roomId ca) → b ≠ a →
  Client.editorRef ca = Some va → Client.editorRef cb = Some vb →
  ∃ sys1 ca1 cb1,
    act a (Page.handleLanguageChange k) sys = Some sys1 ∧
    clients sys1 !! a = Some ca1 ∧ clients sys1 !! b = Some cb1 ∧
    Server.rooms (server sys1) !! Client.roomId ca =
      Some (mkRoomData (Page.CODE_TEMPLATES k) (Page.key_name k) (output rd)) ∧
    (Client.editorRef ca1 = Some (Client.held (Page.CODE_TEMPLATES k)) ∧
     Client.code ca1 = Page.CODE_TEMPLATES k ∧
     Client.language ca1 = Page.key_name k) ∧
    (Client.editorRef cb1 = Some (Client.held (Page.CODE_TEMPLATES k)) ∧
     Client.code cb1 = Page.CODE_TEMPLATES k ∧
     Client.language cb1 = Page.key_name k ∧
     Client.isRemoteUpdate cb1 = true ∧
     Client.emitted cb1 = Client.emitted cb).
Proof.
  intros Hca Hcb Ha Hown Hrd Hb Hba Eva Evb.
  set (t := Page.CODE_TEMPLATES k). set (l := Page.key_name k).
  set (r := Client.roomId ca) in *.
  assert (a ∉ Server.members (server sys) r ∖ Server.members (server sys) a) as Hna
    by set_solver.
  assert (b ∈ Server.members (server sys) r ∖ Server.members (server sys) a) as Hbin
    by set_solver.
  rewrite (act_eq _ _ _ _ Hca).
  destruct (Client.isRemoteUpdate ca) eqn:Hflag.
  - assert (Page.handleLanguageChange k (Client.set_emitted [] ca) =
            Client.mkClient r (Client.joined ca) l t (Client.output ca)
              (Client.userCount ca) true (Some (Client.held t)) (Client.pending ca)
              [language_change r l; code_change r t None]) as ->.
    { unfold Page.handleLanguageChange.
      cbn [Client.editorRef Client.set_emitted Client.setLanguage Client.socket_emit].
      rewrite Eva. unfold Client.editor_setValue.
      cbn [Client.editorRef Client.set_emitted Client.setLanguage Client.socket_emit].
      rewrite Eva. unfold Client.onDidChangeModelContent.
      cbn [Client.isRemoteUpdate Client.editorRef Client.set_emitted Client.setLanguage
           Client.socket_emit Client.set_editorRef].
      rewrite Hflag. etransitivity; [apply client_eta|].
      f_equal; try reflexivity; exact Hflag. }
    cbn [Client.emitted].
    erewrite send_all_cons; [|by apply send_language_change].
    rewrite send_all_one.
    erewrite send_code_change; [|done|cbn; apply lookup_insert_eq].
    eexists _, _, _. split; [done|]. cbn [clients server].
    rewrite !SystemFacts.deliver1_lookup. cbn [recipients payload server].
    rewrite lookup_insert_eq, lookup_insert_ne, Hcb by done.
    cbn [fmap option_fmap option_map Server.members Server.adapter Server.set_rooms].
    fold (Server.members (server sys) r). fold (Server.members (server sys) a).
    rewrite !(decide_False _ _ Hna), !(decide_True _ _ Hbin).
    cbn [Client.on_message].
    rewrite (ClientFacts.receive_code_full _ vb) by done.
    cbn [Server.rooms Server.set_rooms fmap option_fmap option_map].
    split_and!; [reflexivity|reflexivity| |reflexivity..].
    by rewrite insert_insert_eq, lookup_insert_eq.
  - assert (Page.handleLanguageChange k (Client.set_emitted [] ca) =
            Client.mkClient r (Client.joined ca) l t (Client.output ca)
              (Client.userCount ca) false (Some (Client.held t)) (Client.pending ca)
              [language_change r l;
               code_change r (Client.held t) (Some (Client.flushed va t));
               code_change r t None]) as ->.
    { unfold Page.handleLanguageChange.
      cbn [Client.editorRef Client.set_emitted Client.setLanguage Client.socket_emit].
      rewrite Eva. unfold Client.editor_setValue.
      cbn [Client.editorRef Client.set_emitted Client.setLanguage Client.socket_emit].
      rewrite Eva. unfold Client.onDidChangeModelContent.
      cbn [Client.isRemoteUpdate Client.editorRef Client.set_emitted Client.setLanguage
           Client.socket_emit Client.set_editorRef].
      rewrite Hflag. etransitivity; [apply client_eta|].
      f_equal; try reflexivity; exact Hflag. }
    cbn [Client.emitted].
    erewrite send_all_cons; [|by apply send_language_change].
    erewrite send_all_cons;
      [|apply send_code_change; [done|cbn; apply lookup_insert_eq]].
    rewrite send_all_one.
    erewrite send_code_change; [|done|cbn; apply lookup_insert_eq].
    eexists _, _, _. split; [done|]. cbn [clients server].
    rewrite !SystemFacts.deliver1_lookup. cbn [recipients payload server].
    rewrite lookup_insert_eq, lookup_insert_ne, Hcb by done.
    cbn [fmap option_fmap option_map Server.members Server.adapter Server.set_rooms].
    fold (Server.members (server sys) r). fold (Server.members (server sys) a).
    rewrite !(decide_False _ _ Hna), !(decide_True _ _ Hbin).
    cbn [Client.on_message].
    rewrite (full_after_delta _ _ _ vb) by done.
    cbn [Server.rooms Server.set_rooms fmap option_fmap option_map].
    split_and!; [reflexivity|reflexivity| |reflexivity..].
    by rewrite !insert_insert_eq, lookup_insert_eq.
Qed.

(** ** Joining, end to end *)

(** X18.  Joining brings a page up to date.  When the user of a connected
    page joins a room with an id that is not blank (one that [trim] does
    not reduce to the empty string), the server records the
    page in that room and the page ends up with the room's content,
    language and output as the store holds them (the defaults when the
    room is new) and with the member count that now includes it; every
    page that was in the room before shows that count too.  The page's
    flag is set until its 100 ms timer runs. *)
Theorem join_brings_the_page_up_to_date
    (sys : System) (sid id : string) (c : Client.Client) :
  clients sys !! sid = Some c →
  sid ∈ Server.sockets (server sys) →
  sid ∈ Server.members (server sys) sid →
  Client.blank id = false →
  ∃ sys1 c1 rd n,
    act sid (Client.joinRoom id) sys = Some sys1 ∧
    clients sys1 !! sid = Some c1 ∧
    rd = default Server.defaultRoom (Server.rooms (server sys) !! id) ∧
    n = size ({[sid]} ∪ Server.members (server sys) id) ∧
    Server.rooms (server sys1) !! id = Some rd ∧
    Server.socketRoomMap (server sys1) !! sid = Some id ∧
    sid ∈ Server.members (server sys1) id ∧
    (Client.code c1 = code rd ∧ Client.language c1 = language rd ∧
     Client.output c1 = output rd ∧ Client.userCount c1 = n ∧
     Client.roomId c1 = id ∧ Client.joined c1 = true ∧
     Client.isRemoteUpdate c1 = true) ∧
    (∀ y cy, y ∈ Server.members (server sys) id → clients sys !! y = Some cy →
       Client.userCount <$> clients sys1 !! y = Some n).
Proof.
  intros Hc Hs Hown Hid.
  assert (∀ c, Client.joinRoom id c =
               Client.setJoined true
                 (Client.setRoomId id (Client.socket_emit (join_room id) c))) as Hjoin
    by (intros; unfold Client.joinRoom; by rewrite Hid).
  rewrite (act_eq _ _ _ _ Hc), !Hjoin.
  cbn [Client.emitted Client.setJoined Client.setRoomId Client.socket_emit
       Client.set_emitted app].
  rewrite send_all_one.
  erewrite send_eq;
    [|cbn [server]; rewrite ServerFacts.step_recv by done; cbn [Server.dispatch];
      apply ServerFacts.on_join_room_eq].
  unfold Server.members. cbn [Server.adapter]. rewrite !AdapterFacts.group_add.
  rewrite (decide_True (P := id = id)) by done.
  fold (Server.members (server sys) id). fold (Server.members (server sys) sid).
  set (n := size ({[sid]} ∪ Server.members (server sys) id)).
  set (rd := default Server.defaultRoom (Server.rooms (server sys) !! id)).
  set (c0 := Client.set_emitted [] _).
  assert (sid ∈ (if decide (id = sid) then {[sid]} ∪ Server.members (server sys) sid
                 else Server.members (server sys) sid)) as Hown'
    by (destruct (decide _); set_solver).
  eexists _, _, rd, n. split; [done|].
  cbn [clients server deliver fold_left Server.rooms Server.socketRoomMap].
  rewrite !SystemFacts.deliver1_lookup. cbn [recipients payload].
  rewrite lookup_insert_eq. cbn.
  rewrite (decide_True (P := sid ∈ {[sid]} ∪ _)) by set_solver.
  rewrite (decide_True _ _ Hown').
  destruct (sync_state_fields rd (Client.setUserCount n c0))
    as (F1 & F2 & F3 & F4 & F5 & F6 & F7 & _).
  split_and!; [done|done|done| | | | | | | | | | |].
  - by rewrite lookup_insert_eq.
  - by rewrite lookup_insert_eq.
  - rewrite AdapterFacts.group_add, decide_True by done. set_solver.
  - by rewrite F1.
  - by rewrite F2.
  - by rewrite F3.
  - by rewrite F4.
  - by rewrite F5.
  - by rewrite F6.
  - by rewrite F7.
  - intros y cy Hy Hcy. rewrite !SystemFacts.deliver1_lookup. cbn [recipients payload].
    destruct (decide (sid = y)) as [<-|N].
    + rewrite lookup_insert_eq. cbn.
      rewrite (decide_True (P := sid ∈ {[sid]} ∪ _)) by set_solver.
      rewrite (decide_True _ _ Hown'). by rewrite F4.
    + rewrite lookup_insert_ne, Hcy by done. cbn.
      rewrite (decide_True (P := y ∈ {[sid]} ∪ _)) by set_solver.
      destruct (decide (y ∈ _)); [|done].
      by destruct (sync_state_fields rd (Client.setUserCount n cy))
        as (_ & _ & _ & -> & _).
Qed.

(** ** Running the code, end to end *)



(** ** Leaving, end to end *)


End Sessions.

(** An id made of a no-break space and a space is blank: the page sends
    nothing and stays as it was. *)
Example no_break_space_is_blank :
  let id := String (ascii_of_nat 194) (String (ascii_of_nat 160) " ") in
  Client.blank id = true ∧ Client.joinRoom id Client.init = Client.init.
Proof. split; vm_compute; reflexivity. Qed.

Lemma typed_edit_reaches_equal_buffers_witness :
  ∃ sys1 ca1 cb1,
    act "A" (Client.user_types [mkChange 0 0 "x"]) editing = Some sys1 ∧
    clients sys1 !! "A" = Some ca1 ∧ clients sys1 !! "B" = Some cb1 ∧
    Client.editorRef ca1 =
      Some (Client.edited [mkChange 0 0 "x"] (code Server.defaultRoom)) ∧
    Client.editorRef cb1 =
      Some (Client.edited [mkChange 0 0 "x"] (code Server.defaultRoom)) ∧
    Client.code cb1 = Client.edited [mkChange 0 0 "x"] (code Server.defaultRoom) ∧
    code <$> Server.rooms (server sys1) !! Client.roomId (page "A" editing)
      = Some (Client.edited [mkChange 0 0 "x"] (code Server.defaultRoom)) ∧
    Client.emitted cb1 = Client.emitted (page "B" editing) ∧
    (∀ y, y ∉ Server.members (server editing) (Client.roomId (page "A" editing)) →
          y ≠ "A" → clients sys1 !! y = clients editing !! y).
Proof.
  apply (typed_edit_reaches_equal_buffers
           editing "A" "B" (page "A" editing) (page "B" editing)
           (code Server.defaultRoom) [mkChange 0 0 "x"] Server.defaultRoom).
  - vm_compute. reflexivity.
  - vm_compute. reflexivity.
  - vm_compute. reflexivity.
  - vm_compute. reflexivity.
  - vm_compute. reflexivity.
  - vm_compute. reflexivity.
  - discriminate.
  - vm_compute. reflexivity.
  - vm_compute. reflexivity.
  - vm_compute. reflexivity.
  - vm_compute. reflexivity.
Defined.


Lemma language_pick_replaces_the_code_of_the_room_witness :
  ∃ sys1 ca1 cb1,
    act "A" (Page.handleLanguageChange Page.python) editing = Some sys1 ∧
    clients sys1 !! "A" = Some ca1 ∧ clients sys1 !! "B" = Some cb1 ∧
    Server.rooms (server sys1) !! Client.roomId (page "A" editing) =
      Some (mkRoomData (Page.CODE_TEMPLATES Page.python) (Page.key_name Page.python)
                       (output Server.defaultRoom)) ∧
    (Client.editorRef ca1 = Some (Client.held (Page.CODE_TEMPLATES Page.python)) ∧
     Client.code ca1 = Page.CODE_TEMPLATES Page.python ∧
     Client.language ca1 = Page.key_name Page.python) ∧
    (Client.editorRef cb1 = Some (Client.held (Page.CODE_TEMPLATES Page.python)) ∧
     Client.code cb1 = Page.CODE_TEMPLATES Page.python ∧
     Client.language cb1 = Page.key_name Page.python ∧
     Client.isRemoteUpdate cb1 = true ∧
     Client.emitted cb1 = Client.emitted (page "B" editing)).
Proof.
  apply (language_pick_replaces_the_code_of_the_room
           editing "A" "B" (page "A" editing) (page "B" editing)
           (code Server.defaultRoom) (code Server.defaultRoom) Page.python
           Server.defaultRoom).
  - vm_compute. reflexivity.
  - vm_compute. reflexivity.
  - vm_compute. reflexivity.
  - vm_compute. reflexivity.
  - vm_compute. reflexivity.
  - vm_compute. reflexivity.
  - discriminate.
  - vm_compute. reflexivity.
  - vm_compute. reflexivity.
Defined.


Lemma join_brings_the_page_up_to_date_witness :
  ∃ sys1 c1 rd n,
    act "A" (Client.joinRoom "r") arrived = Some sys1 ∧
    clients sys1 !! "A" = Some c1 ∧
    rd = default Server.defaultRoom (Server.rooms (server arrived) !! "r") ∧
    n = size ({["A"]} ∪ Server.members (server arrived) "r") ∧
    Server.rooms (server sys1) !! "r" = Some rd ∧
    Server.socketRoomMap (server sys1) !! "A" = Some "r" ∧
    "A" ∈ Server.members (server sys1) "r" ∧
    (Client.code c1 = code rd ∧ Client.language c1 = language rd ∧
     Client.output c1 = output rd ∧ Client.userCount c1 = n ∧
     Client.roomId c1 = "r" ∧ Client.joined c1 = true ∧
     Client.isRemoteUpdate c1 = true) ∧
    (∀ y cy, y ∈ Server.members (server arrived) "r" → clients arrived !! y = Some cy →
       Client.userCount <$> clients sys1 !! y = Some n).
Proof.
  apply (join_brings_the_page_up_to_date arrived "A" "r" (page "A" arrived)).
  - vm_compute. reflexivity.
  - vm_compute. reflexivity.
  - vm_compute. reflexivity.
  - vm_compute. reflexivity.
Defined.




End SessionFacts.
